(** * Pet adoption backend: adoption lifecycle and activity registration

    A shallow embedding of the Mongoose models [Adoption] and [Activity]
    (schema hooks and instance methods) and of the Express handlers that
    create adoption requests and register users for activities, followed
    by the properties established about them.

    Conventions of the embedding.
    - JavaScript [Number] fields that hold money amounts and counters are
      integers ([Z]); dates are milliseconds since the epoch ([Z]) and the
      clock reading of a call ([Date.now()], [new Date()]) is the explicit
      argument [now].
    - ObjectIds are natural numbers.
    - A schema [enum] is an inductive type; [null] and [undefined] are
      [None].
    - A promise returned by [save()] is its outcome: [Ok doc] when it
      resolves, [Err msg] when it rejects; a [throw] is [Err] as well.
    - Document fields that none of the modelled methods reads or writes
      (personal and housing information, references, contract, ...) are
      left out of the records.
    - Several handlers read a document under paths its schema does not
      declare.  Such a handler is modelled on what its property reads
      give, [None] for [undefined], together with the function [read]
      that says what they give on a document of the model; a method call
      on [undefined] throws a TypeError, which the [catch] of the handler
      hands to [next] ([Failed]). *)

From Stdlib Require Import ZArith List Bool String Lia Sorted Permutation.
Import ListNotations.

Local Open Scope string_scope.
Local Open Scope list_scope.
Local Open Scope Z_scope.

(** ** Outcomes of fallible calls *)

Inductive result (A : Type) : Type :=
| Ok (a : A)
| Err (msg : string).

Arguments Ok {A} a.
Arguments Err {A} msg.

Definition bind {A B : Type} (r : result A) (k : A -> result B) : result B :=
  match r with
  | Ok a => k a
  | Err msg => Err msg
  end.

Notation "x <- r ;; k" := (bind r (fun x => k))
  (at level 61, r at next level, right associativity).

Definition is_ok {A : Type} (r : result A) : bool :=
  match r with Ok _ => true | Err _ => false end.


(** Replace the first element satisfying [p] (a subdocument found by
    [find] or [id] and then assigned to in place). *)
Fixpoint update_first {A : Type} (p : A -> bool) (f : A -> A) (l : list A) : list A :=
  match l with
  | [] => []
  | x :: r => if p x then f x :: r else x :: update_first p f r
  end.

(** ** The Adoption model *)

Module Adoption.

(** [status] enum of the schema. *)
Inductive Status : Type :=
| Submitted | UnderReview | Approved | Rejected | OnHold
| MeetScheduled | MeetCompleted | HomeVisitScheduled | HomeVisitCompleted
| AdoptionApproved | AdoptionCompleted | AdoptionReturned | Withdrawn.

(** The string each status is stored as. *)
Definition status_name (s : Status) : string :=
  match s with
  | Submitted => "submitted"
  | UnderReview => "under-review"
  | Approved => "approved"
  | Rejected => "rejected"
  | OnHold => "on-hold"
  | MeetScheduled => "meet-scheduled"
  | MeetCompleted => "meet-completed"
  | HomeVisitScheduled => "home-visit-scheduled"
  | HomeVisitCompleted => "home-visit-completed"
  | AdoptionApproved => "adoption-approved"
  | AdoptionCompleted => "adoption-completed"
  | AdoptionReturned => "adoption-returned"
  | Withdrawn => "withdrawn"
  end.

Definition Status_eq_dec (a b : Status) : {a = b} + {a <> b}.
Proof. decide equality. Defined.

Definition status_eqb (a b : Status) : bool :=
  if Status_eq_dec a b then true else false.

(** [visits[].type], [visits[].status] and [visits[].outcome] enums. *)
Inductive VisitType : Type := MeetAndGreet | HomeVisit | FollowUp.
Inductive VisitStatus : Type :=
| VScheduled | VCompleted | VCancelled | VNoShow | VRescheduled.
Inductive Outcome : Type := OApproved | ORejected | ONeedsFollowUp | OPending.

Record Visit : Type := mkVisit {
  v_id : nat;
  v_type : VisitType;
  v_scheduledDate : Z;
  v_status : VisitStatus;
  v_notes : option string;
  v_outcome : option Outcome;
  v_completedAt : option Z
}.

Record TimelineEntry : Type := mkEntry {
  t_status : Status;
  t_date : Z;
  t_notes : option string;
  t_updatedBy : option nat
}.

Inductive PaymentStatus : Type := Pending | Partial | Paid | Refunded.

Record AdditionalFee : Type := mkFee {
  af_description : string;
  af_amount : Z
}.

Record Fees : Type := mkFees {
  f_adoption : Z;
  f_additional : list AdditionalFee;
  f_total : Z;
  f_paid : Z;
  f_paymentStatus : PaymentStatus;
  f_paymentMethod : option string;
  f_transactionId : option string
}.

Record Note : Type := mkNote {
  n_author : option nat;
  n_content : string;
  n_createdAt : Z;
  n_isPrivate : bool
}.

(** A stored adoption document. *)
Record Doc : Type := mkDoc {
  applicant : nat;
  pet : nat;
  shelter : nat;
  status : Status;
  visits : list Visit;
  timeline : list TimelineEntry;
  fees : Fees;
  internalNotes : list Note
}.

(** *** Change tracking

    A method runs on a hydrated document.  Mongoose remembers which paths
    were assigned a value different from the loaded one; the pre-save
    hook asks [isModified('status')].  [Working] is the document in
    memory together with that flag. *)
Record Working : Type := mkWorking {
  doc : Doc;
  status_dirty : bool
}.

Definition load (d : Doc) : Working := mkWorking d false.

Definition with_status (s : Status) (d : Doc) : Doc :=
  mkDoc (applicant d) (pet d) (shelter d) s (visits d) (timeline d) (fees d)
        (internalNotes d).

Definition with_visits (vs : list Visit) (d : Doc) : Doc :=
  mkDoc (applicant d) (pet d) (shelter d) (status d) vs (timeline d) (fees d)
        (internalNotes d).

Definition with_timeline (tl : list TimelineEntry) (d : Doc) : Doc :=
  mkDoc (applicant d) (pet d) (shelter d) (status d) (visits d) tl (fees d)
        (internalNotes d).

Definition with_fees (f : Fees) (d : Doc) : Doc :=
  mkDoc (applicant d) (pet d) (shelter d) (status d) (visits d) (timeline d) f
        (internalNotes d).

Definition with_notes (ns : list Note) (d : Doc) : Doc :=
  mkDoc (applicant d) (pet d) (shelter d) (status d) (visits d) (timeline d)
        (fees d) ns.

(** [this.status = s]: the path becomes modified when the value changes. *)
Definition assign_status (s : Status) (w : Working) : Working :=
  mkWorking (with_status s (doc w))
            (status_dirty w || negb (status_eqb s (status (doc w)))).

(** An edit of the document that leaves [status] alone. *)
Definition edit (f : Doc -> Doc) (w : Working) : Working :=
  mkWorking (f (doc w)) (status_dirty w).

(** *** pre('save') hook *)

(** [this.fees.additional.reduce((sum, fee) => sum + fee.amount, 0)] *)
Definition reduce_amounts (l : list AdditionalFee) : Z :=
  fold_left (fun sum fee => sum + af_amount fee) l 0.

(** The sum of the amounts of a list of additional fees. *)
Definition sum_amounts (l : list AdditionalFee) : Z :=
  fold_right Z.add 0 (map af_amount l).

(** [fees.total] agrees with the fee components. *)
Definition total_consistent (d : Fees) : Prop :=
  f_total d = f_adoption d + sum_amounts (f_additional d).


Definition pre_save_fees (f : Fees) : Fees :=
  let total := f_adoption f + reduce_amounts (f_additional f) in
  let ps :=
    if total <=? f_paid f then Paid
    else if 0 <? f_paid f then Partial
    else f_paymentStatus f in
  mkFees (f_adoption f) (f_additional f) total (f_paid f) ps
         (f_paymentMethod f) (f_transactionId f).

Definition pre_save (now : Z) (w : Working) : Working :=
  let d := with_fees (pre_save_fees (fees (doc w))) (doc w) in
  let d :=
    if status_dirty w
    then with_timeline (timeline d ++ [mkEntry (status d) now None None]) d
    else d in
  mkWorking d (status_dirty w).

(** [this.save()]: run the hook and store the document.  The typed
    record already satisfies the schema's enum and type constraints, so
    validation has nothing to reject; the hook's first step, which fills
    in a missing [application.id], concerns a field left out here. *)
Definition save (now : Z) (w : Working) : Doc := doc (pre_save now w).

(** *** Virtuals *)

Definition activeStatuses : list Status :=
  [Submitted; UnderReview; Approved; MeetScheduled; MeetCompleted;
   HomeVisitScheduled; HomeVisitCompleted; AdoptionApproved].

Definition isActive (d : Doc) : bool :=
  existsb (status_eqb (status d)) activeStatuses.

(** *** Instance methods *)

Definition updateStatus (now : Z) (newStatus : Status) (notes : string)
    (updatedBy : option nat) (d : Doc) : result Doc :=
  let w := assign_status newStatus (load d) in
  let w := edit (fun d => with_timeline
                   (timeline d ++ [mkEntry newStatus now (Some notes) updatedBy]) d) w in
  Ok (save now w).

(** [visitData] is spread into the pushed subdocument and [status] is
    then set to 'scheduled'; [vd_id] stands for the [_id] the
    subdocument receives. *)
Record VisitData : Type := mkVisitData {
  vd_id : nat;
  vd_type : VisitType;
  vd_scheduledDate : Z;
  vd_notes : option string;
  vd_outcome : option Outcome;
  vd_completedAt : option Z
}.

Definition scheduleVisit (now : Z) (visitData : VisitData) (d : Doc) : result Doc :=
  let visit := mkVisit (vd_id visitData) (vd_type visitData)
                 (vd_scheduledDate visitData) VScheduled (vd_notes visitData)
                 (vd_outcome visitData) (vd_completedAt visitData) in
  Ok (save now (edit (fun d => with_visits (visits d ++ [visit]) d) (load d))).

Definition has_id (visitId : nat) (v : Visit) : bool := Nat.eqb (v_id v) visitId.

Definition complete (now : Z) (outcome : Outcome) (notes : option string)
    (v : Visit) : Visit :=
  mkVisit (v_id v) (v_type v) (v_scheduledDate v) VCompleted notes
          (Some outcome) (Some now).

Definition completeVisit (now : Z) (visitId : nat) (outcome : Outcome)
    (notes : option string) (d : Doc) : result Doc :=
  match find (has_id visitId) (visits d) with
  | Some visit =>
      let w := edit (fun d => with_visits
                       (update_first (has_id visitId) (complete now outcome notes)
                                     (visits d)) d) (load d) in
      let w :=
        match v_type visit, outcome with
        | MeetAndGreet, OApproved => assign_status MeetCompleted w
        | HomeVisit, OApproved => assign_status HomeVisitCompleted w
        | _, _ => w
        end in
      Ok (save now w)
  | None => Err "Visit not found"
  end.

Definition addNote (now : Z) (content : string) (author : option nat)
    (isPrivate : bool) (d : Doc) : result Doc :=
  Ok (save now (edit (fun d => with_notes
        (internalNotes d ++ [mkNote author content now isPrivate]) d) (load d))).

Definition processPayment (now : Z) (amount : Z) (method : string)
    (transactionId : string) (d : Doc) : result Doc :=
  let f := fees d in
  let paid := f_paid f + amount in
  let settled := f_total f <=? paid in
  let f' := mkFees (f_adoption f) (f_additional f) (f_total f) paid
              (if settled then Paid else Partial)
              (Some method) (Some transactionId) in
  let w := edit (with_fees f') (load d) in
  let w :=
    if settled && status_eqb (status d) AdoptionApproved
    then assign_status AdoptionCompleted w
    else w in
  Ok (save now w).

(** The engine operations, as one type. *)
Inductive Op : Type :=
| OpUpdateStatus (newStatus : Status) (notes : string) (updatedBy : option nat)
| OpScheduleVisit (visitData : VisitData)
| OpCompleteVisit (visitId : nat) (outcome : Outcome) (notes : option string)
| OpAddNote (content : string) (author : option nat) (isPrivate : bool)
| OpProcessPayment (amount : Z) (method : string) (transactionId : string).

Definition run (now : Z) (op : Op) (d : Doc) : result Doc :=
  match op with
  | OpUpdateStatus s notes by_ => updateStatus now s notes by_ d
  | OpScheduleVisit vd => scheduleVisit now vd d
  | OpCompleteVisit id o notes => completeVisit now id o notes d
  | OpAddNote c a p => addNote now c a p d
  | OpProcessPayment amount m t => processPayment now amount m t d
  end.

End Adoption.

(** ** The Activity model *)

Module Activity.

(** [participants[].status] enum. *)
Inductive PStatus : Type := Registered | Attended | NoShow | Cancelled | Waitlisted.

Definition is_registered (s : PStatus) : bool :=
  match s with Registered => true | _ => false end.

Definition is_waitlisted (s : PStatus) : bool :=
  match s with Waitlisted => true | _ => false end.

Record Participant : Type := mkParticipant {
  p_user : nat;
  p_registeredAt : Z;
  p_status : PStatus
}.

Record Capacity : Type := mkCapacity {
  c_max : Z;
  c_current : Z;
  c_waitlist : Z
}.

Record Doc : Type := mkDoc {
  date_start : Z;
  date_end : Z;
  capacity : Capacity;
  participants : list Participant;
  registration_required : bool;
  registration_deadline : option Z
}.

Definition with_capacity (c : Capacity) (a : Doc) : Doc :=
  mkDoc (date_start a) (date_end a) c (participants a)
        (registration_required a) (registration_deadline a).

Definition with_participants (ps : list Participant) (a : Doc) : Doc :=
  mkDoc (date_start a) (date_end a) (capacity a) ps
        (registration_required a) (registration_deadline a).

Definition with_deadline (dl : option Z) (a : Doc) : Doc :=
  mkDoc (date_start a) (date_end a) (capacity a) (participants a)
        (registration_required a) dl.

Definition set_current (n : Z) (c : Capacity) : Capacity :=
  mkCapacity (c_max c) n (c_waitlist c).

Definition set_waitlist (n : Z) (c : Capacity) : Capacity :=
  mkCapacity (c_max c) (c_current c) n.

(** Schema validators of the capacity block ([min] constraints), run by
    [save()] before the hooks.  Mongoose runs a validator when its path
    was modified; on a document that was itself stored through [save()]
    the untouched paths pass anyway, so all three are run here. *)
Definition validate (a : Doc) : result Doc :=
  if c_max (capacity a) <? 1 then Err "Capacity must be at least 1"
  else if c_current (capacity a) <? 0
  then Err "Current registrations cannot be negative"
  else if c_waitlist (capacity a) <? 0
  then Err "Waitlist count cannot be negative"
  else Ok a.

(** pre('save') hook. *)
Definition pre_save (a : Doc) : result Doc :=
  if date_end a <=? date_start a
  then Err "End date must be after start date"
  else if c_max (capacity a) <? c_current (capacity a)
  then Err "Current registrations cannot exceed maximum capacity"
  else
    match registration_required a, registration_deadline a with
    | true, None => Ok (with_deadline (Some (date_start a - 24 * 60 * 60 * 1000)) a)
    | _, _ => Ok a
    end.

Definition save (a : Doc) : result Doc :=
  a <- validate a ;; pre_save a.

(** Virtuals. *)
Definition spotsAvailable (a : Doc) : Z :=
  Z.max 0 (c_max (capacity a) - c_current (capacity a)).

Definition isFullyBooked (a : Doc) : bool :=
  c_max (capacity a) <=? c_current (capacity a).

(** [addParticipant(userId, status = 'registered')] *)
Definition addParticipant (now : Z) (userId : nat) (status : PStatus)
    (a : Doc) : result Doc :=
  let c := capacity a in
  let '(status, c) :=
    if (c_max c <=? c_current c) && is_registered status
    then (Waitlisted, set_waitlist (c_waitlist c + 1) c)
    else if is_registered status
    then (status, set_current (c_current c + 1) c)
    else (status, c) in
  save (with_participants
          (participants a ++ [mkParticipant userId now status])
          (with_capacity c a)).

Definition has_user (userId : nat) (p : Participant) : bool :=
  Nat.eqb (p_user p) userId.

Definition waitlisted (p : Participant) : bool := is_waitlisted (p_status p).

Definition promote (p : Participant) : Participant :=
  mkParticipant (p_user p) (p_registeredAt p) Registered.

(** [this.participants.pull({ user: userId })].  Mongoose casts the
    argument to a subdocument of the array, one without an [_id], and
    looks for the elements equal to it, which for subdocuments is
    equality of [_id]: no element of the array in memory is equal to it,
    so the array the method works on keeps every entry.  The call
    registers the removal for the next save; [pull_user] is what the
    store does with it: the entries of that user leave. *)
Definition pull_user (userId : nat) (l : list Participant) : list Participant :=
  filter (fun p => negb (has_user userId p)) l.

(** What a call that saves leaves behind: the document the returned
    promise resolves with, which is the one in memory, and the document
    the store holds afterwards, which the next [findById] returns. *)
Record Saved : Type := mkSaved {
  resolved : Doc;
  stored : Doc
}.

(** [removeParticipant(userId)]; [None] is the early [return false].
    The flag beside the document in memory tells whether an element of
    [participants] was assigned to (the promotion).  When the array has
    a registered [pull] and one of its elements was modified as well,
    Mongoose writes the array as it is in memory, with the entry of the
    leaving user; otherwise it sends the [pull] to the store. *)
Definition removeParticipant (userId : nat) (a : Doc) : option (result Saved) :=
  match find (has_user userId) (participants a) with
  | None => None
  | Some participant =>
      let '(a, promoted) :=
        match p_status participant with
        | Registered =>
            let a := with_capacity
                       (set_current (c_current (capacity a) - 1) (capacity a)) a in
            match find waitlisted (participants a) with
            | Some _ =>
                let a := with_participants
                           (update_first waitlisted promote (participants a)) a in
                let a := with_capacity
                           (set_current (c_current (capacity a) + 1) (capacity a)) a in
                (with_capacity
                   (set_waitlist (c_waitlist (capacity a) - 1) (capacity a)) a,
                 true)
            | None => (a, false)
            end
        | Waitlisted =>
            (with_capacity
               (set_waitlist (c_waitlist (capacity a) - 1) (capacity a)) a,
             false)
        | _ => (a, false)
        end in
      Some (a <- save a ;;
            Ok (mkSaved a
                  (if promoted : bool then a
                   else with_participants
                          (pull_user userId (participants a)) a)))
  end.

(** Whether a withdrawal of [userId] promotes somebody: the entry [find]
    returns is registered and somebody waits. *)
Definition promotes (userId : nat) (a : Doc) : bool :=
  match find (has_user userId) (participants a) with
  | Some participant =>
      is_registered (p_status participant)
      && match find waitlisted (participants a) with
         | Some _ => true
         | None => false
         end
  | None => false
  end.

Record ParticipantStats : Type := mkStats {
  st_registered : nat;
  st_attended : nat;
  st_noShows : nat;
  st_cancelled : nat;
  st_waitlisted : nat
}.

Definition pstatus_eqb (a b : PStatus) : bool :=
  match a, b with
  | Registered, Registered | Attended, Attended | NoShow, NoShow
  | Cancelled, Cancelled | Waitlisted, Waitlisted => true
  | _, _ => false
  end.

Definition count_status (s : PStatus) (l : list Participant) : nat :=
  List.length (filter (fun p => pstatus_eqb (p_status p) s) l).

Definition getParticipantStats (a : Doc) : ParticipantStats :=
  mkStats (count_status Registered (participants a))
          (count_status Attended (participants a))
          (count_status NoShow (participants a))
          (count_status Cancelled (participants a))
          (count_status Waitlisted (participants a)).

(** A newly created activity: counters at their defaults, nobody
    registered. *)
Definition fresh (start finish max : Z) : Doc :=
  mkDoc start finish (mkCapacity max 0 0) [] true None.

(** *** Requests

    A registration or a withdrawal addressed to the model; [serve] is the
    stored activity afterwards (a request that stores nothing leaves it
    as it was). *)
Inductive Request : Type :=
| Register (now : Z) (userId : nat)
| Unregister (userId : nat).

Definition serve (r : Request) (a : Doc) : Doc :=
  match r with
  | Register now userId =>
      match addParticipant now userId Registered a with
      | Ok a' => a'
      | Err _ => a
      end
  | Unregister userId =>
      match removeParticipant userId a with
      | Some (Ok saved) => stored saved
      | _ => a
      end
  end.

(** The requests under which the counters are followed: a registration
    of a user without an entry, and a withdrawal that promotes nobody. *)
Definition admissible (r : Request) (a : Doc) : Prop :=
  match r with
  | Register _ userId => ~ In userId (map p_user (participants a))
  | Unregister userId => promotes userId a = false
  end.

Inductive served (start : Doc) : Doc -> Prop :=
| served_start : served start start
| served_step a r :
    served start a -> admissible r a -> served start (serve r a).

(** *** Consistency predicates *)

(** The document passes the capacity validators and the pre-save hook:
    what [save] accepts. *)
Definition storable (a : Doc) : Prop :=
  1 <= c_max (capacity a) /\
  0 <= c_current (capacity a) <= c_max (capacity a) /\
  0 <= c_waitlist (capacity a) /\
  date_start a < date_end a.

(** The counters agree with the participant list. *)
Definition counters_ok (a : Doc) : Prop :=
  c_current (capacity a) <= c_max (capacity a) /\
  c_current (capacity a) = Z.of_nat (count_status Registered (participants a)) /\
  c_waitlist (capacity a) = Z.of_nat (count_status Waitlisted (participants a)).

(** No user appears twice among the participants. *)
Definition one_entry_per_user (a : Doc) : Prop :=
  NoDup (map p_user (participants a)).


End Activity.

(** ** Express handlers of /api/adoptions *)

Module AdoptionRoutes.

(** [adoption.status] enum of the Pet schema. *)
Inductive PetStatus : Type := Available | PetPending | Adopted | NotAvailable | Hold.

Definition is_available (s : PetStatus) : bool :=
  match s with Available => true | _ => false end.

Record AdoptionRecord : Type := mkAdoptionRecord {
  ar_adoptedBy : nat;
  ar_adoptedDate : Z;
  ar_status : string
}.

Record Pet : Type := mkPet {
  pet_id : nat;
  pet_status : PetStatus;
  pet_shelter : nat;
  pet_adoptedBy : option nat;
  pet_adoptedDate : option Z;
  pet_adoptionHistory : list AdoptionRecord
}.

(** What a handler does with the request: a JSON reply with its HTTP
    status, or [next(error)]. *)
Inductive Response : Type :=
| Json (code : nat) (message : string)
| Failed (msg : string).

(** The object handed to [Adoption.create]. *)
Record NewRequest : Type := mkNewRequest {
  nr_pet : nat;
  nr_adopter : nat;
  nr_shelter : nat
}.

(** The filter of the duplicate lookup,
    [{ pet, adopter, status: { $in: ['pending', 'approved'] } }], goes
    to the store as the handler wrote it.  It names the top-level paths
    [pet] and [adopter]; the schema keeps the pet and the applicant under
    [application] and declares no [adopter], so a stored application has
    neither top-level field, and an equality on a missing field selects
    nothing. *)
Definition duplicate_statuses : list string := ["pending"; "approved"].

Definition top_level_pet (d : Adoption.Doc) : option nat := None.

Definition top_level_adopter (d : Adoption.Doc) : option nat := None.

Definition path_is (stored : option nat) (wanted : nat) : bool :=
  match stored with
  | Some value => Nat.eqb value wanted
  | None => false
  end.

Definition existing_request (petId user : nat) (d : Adoption.Doc) : bool :=
  path_is (top_level_pet d) petId
  && path_is (top_level_adopter d) user
  && existsb (String.eqb (Adoption.status_name (Adoption.status d)))
             duplicate_statuses.

Section Handlers.

(** [Adoption.create]: schema validation and insertion belong to the
    model layer; the handler only sees whether it resolves. *)
Variable create : NewRequest -> result Adoption.Doc.

(** POST /api/adoptions, after [protect] has identified [user] and the
    body validators have accepted [petId]. *)
Definition postAdoption (user petId : nat) (pets : list Pet)
    (adoptions : list Adoption.Doc) : Response * list Adoption.Doc :=
  match find (fun p => Nat.eqb (pet_id p) petId) pets with
  | None => (Json 404 "Pet not found", adoptions)
  | Some pet =>
      if negb (is_available (pet_status pet))
      then (Json 400 "This pet is not available for adoption", adoptions)
      else
        match find (existing_request (pet_id pet) user) adoptions with
        | Some _ =>
            (Json 400 "You have already submitted an adoption request for this pet",
             adoptions)
        | None =>
            match create (mkNewRequest (pet_id pet) user (pet_shelter pet)) with
            | Ok adoption =>
                (Json 201 "Adoption request submitted successfully",
                 adoptions ++ [adoption])
            | Err msg => (Failed msg, adoptions)
            end
        end
  end.

End Handlers.

(** **** PUT /api/adoptions/:id/status

    The statuses the body validator lets through. *)
Inductive RequestedStatus : Type :=
| ReqPending | ReqApproved | ReqRejected | ReqCompleted | ReqCancelled.

Definition requested_name (s : RequestedStatus) : string :=
  match s with
  | ReqPending => "pending"
  | ReqApproved => "approved"
  | ReqRejected => "rejected"
  | ReqCompleted => "completed"
  | ReqCancelled => "cancelled"
  end.

(** The adoption as this handler reads and writes it, with its pet
    populated. *)
Record RequestView : Type := mkRequestView {
  rq_status : string;
  rq_pet : Pet;
  rq_adopter : nat;
  rq_shelterNotes : option string;
  rq_scheduledMeetingDate : option Z;
  rq_rejectionReason : option string;
  rq_approvedDate : option Z;
  rq_rejectedDate : option Z;
  rq_completedDate : option Z
}.

(** The body of the request; an absent or empty field is [None]. *)
Record StatusBody : Type := mkStatusBody {
  sb_status : RequestedStatus;
  sb_notes : option string;
  sb_scheduledMeetingDate : option Z;
  sb_rejectionReason : option string
}.

Definition or_else {A : Type} (new old : option A) : option A :=
  match new with Some _ => new | None => old end.

Definition is_rejected (s : RequestedStatus) : bool :=
  match s with ReqRejected => true | _ => false end.

(** The assignments made before the [switch]. *)
Definition apply_body (body : StatusBody) (adoption : RequestView) : RequestView :=
  mkRequestView (requested_name (sb_status body)) (rq_pet adoption)
    (rq_adopter adoption)
    (or_else (sb_notes body) (rq_shelterNotes adoption))
    (or_else (sb_scheduledMeetingDate body) (rq_scheduledMeetingDate adoption))
    (if is_rejected (sb_status body)
     then or_else (sb_rejectionReason body) (rq_rejectionReason adoption)
     else rq_rejectionReason adoption)
    (rq_approvedDate adoption) (rq_rejectedDate adoption)
    (rq_completedDate adoption).

Definition stamp_approved (now : Z) (r : RequestView) : RequestView :=
  mkRequestView (rq_status r) (rq_pet r) (rq_adopter r) (rq_shelterNotes r)
    (rq_scheduledMeetingDate r) (rq_rejectionReason r)
    (Some now) (rq_rejectedDate r) (rq_completedDate r).

Definition stamp_rejected (now : Z) (r : RequestView) : RequestView :=
  mkRequestView (rq_status r) (rq_pet r) (rq_adopter r) (rq_shelterNotes r)
    (rq_scheduledMeetingDate r) (rq_rejectionReason r)
    (rq_approvedDate r) (Some now) (rq_completedDate r).

Definition stamp_completed (now : Z) (pet : Pet) (r : RequestView) : RequestView :=
  mkRequestView (rq_status r) pet (rq_adopter r) (rq_shelterNotes r)
    (rq_scheduledMeetingDate r) (rq_rejectionReason r)
    (rq_approvedDate r) (rq_rejectedDate r) (Some now).

Definition with_pet (pet : Pet) (r : RequestView) : RequestView :=
  mkRequestView (rq_status r) pet (rq_adopter r) (rq_shelterNotes r)
    (rq_scheduledMeetingDate r) (rq_rejectionReason r)
    (rq_approvedDate r) (rq_rejectedDate r) (rq_completedDate r).

Definition with_stored_status (status : string) (r : RequestView) : RequestView :=
  mkRequestView status (rq_pet r) (rq_adopter r) (rq_shelterNotes r)
    (rq_scheduledMeetingDate r) (rq_rejectionReason r)
    (rq_approvedDate r) (rq_rejectedDate r) (rq_completedDate r).

(** The pet of a completed adoption. *)
Definition adopt (now : Z) (adopter : nat) (p : Pet) : Pet :=
  mkPet (pet_id p) Adopted (pet_shelter p) (Some adopter) (Some now)
        (pet_adoptionHistory p ++ [mkAdoptionRecord adopter now "completed"]).

Definition success_message (s : RequestedStatus) : string :=
  ("Adoption request " ++ requested_name s ++ " successfully")%string.

Section StatusHandler.

(** [adoption.pet.save()] and [adoption.save()], owned by the model
    layer. *)
Variable savePet : Pet -> result Pet.
Variable saveAdoption : RequestView -> result RequestView.

(** After [protect] and [authorize('shelter_admin', 'admin')] have let
    the request through; [found] is the outcome of [Adoption.findById].
    The second component is what the store holds afterwards. *)
Definition putStatus (now : Z) (body : StatusBody) (found : option RequestView)
    : Response * option RequestView :=
  match found with
  | None => (Json 404 "Adoption request not found", found)
  | Some stored =>
      let adoption := apply_body body stored in
      let reply r :=
        match r with
        | Ok saved => (Json 200 (success_message (sb_status body)), Some saved)
        | Err msg => (Failed msg, found)
        end in
      match sb_status body with
      | ReqApproved => reply (saveAdoption (stamp_approved now adoption))
      | ReqRejected => reply (saveAdoption (stamp_rejected now adoption))
      | ReqCompleted =>
          match savePet (adopt now (rq_adopter adoption) (rq_pet adoption)) with
          | Err msg => (Failed msg, found)
          | Ok pet =>
              match saveAdoption (stamp_completed now pet adoption) with
              | Ok saved =>
                  (Json 200 (success_message (sb_status body)), Some saved)
              | Err msg => (Failed msg, Some (with_pet pet stored))
              end
          end
      | _ => reply (saveAdoption adoption)
      end
  end.

End StatusHandler.

End AdoptionRoutes.

(** ** A payment and the two collections

    [processPayment] ends in [this.save()], which writes the application
    it was called on.  The Adoption model requires nothing but mongoose
    and the method names no other document: the pet the application
    refers to is not written. *)

Module Payments.

(** The application and the pet it refers to, as the two collections
    hold them. *)
Record Stores : Type := mkStores {
  st_application : Adoption.Doc;
  st_pet : AdoptionRoutes.Pet
}.

Definition processPayment (now amount : Z) (method transactionId : string)
    (s : Stores) : result Stores :=
  d <- Adoption.processPayment now amount method transactionId
         (st_application s) ;;
  Ok (mkStores d (st_pet s)).

End Payments.

(** ** Express handlers of /api/activities *)

Module ActivityRoutes.

Inductive Response : Type :=
| Json (code : nat) (message : string)
| Failed (msg : string).

(** The registration handlers do not go through [addParticipant] and
    [removeParticipant], and they read the activity under names of their
    own: [startDate], a [registrations] array and a numeric [capacity].
    [View] holds what these property reads give on the document
    [Activity.findById] returned, [None] being [undefined]. *)
Record Registration : Type := mkRegistration {
  r_user : nat;
  r_registeredAt : Z;
  r_notes : string;
  r_emergencyContact : string;
  r_status : option string
}.

Inductive CapacityRead : Type :=
| NoCapacity
| Count (c : Z)
| Counters (c : Activity.Capacity).

Record View : Type := mkView {
  startDate : option Z;
  registrations : option (list Registration);
  capacity : CapacityRead
}.

(** The reads on a document of the Activity model.  The schema declares
    [date.start], [participants] and the three counters under
    [capacity]; it declares neither [startDate] nor [registrations], so
    on every document of the model these two reads give [undefined],
    and [capacity] is the object of the counters. *)
Definition read (a : Activity.Doc) : View :=
  mkView None None (Counters (Activity.capacity a)).

Definition with_registrations (rs : list Registration) (a : View) : View :=
  mkView (startDate a) (Some rs) (capacity a).

Definition of_user (user : nat) (reg : Registration) : bool :=
  Nat.eqb (r_user reg) user.

(** [new Date(activity.startDate) < new Date()]; the date made from
    [undefined] is invalid and the comparison is false. *)
Definition in_the_past (now : Z) (a : View) : bool :=
  match startDate a with
  | Some start => start <? now
  | None => false
  end.

(** [activity.capacity && activity.registrations.length >= activity.capacity];
    an object is truthy and compares as NaN, so the test is false. *)
Definition at_capacity (a : View) (regs : list Registration) : bool :=
  match capacity a with
  | Count c => negb (c =? 0) && (c <=? Z.of_nat (List.length regs))
  | Counters _ => false
  | NoCapacity => false
  end.

(** [splice(index, 1)] at the index [findIndex] returned. *)
Fixpoint remove_first {A : Type} (p : A -> bool) (l : list A) : list A :=
  match l with
  | [] => []
  | x :: r => if p x then r else x :: remove_first p r
  end.

Section Handlers.

(** [activity.save()], owned by the model layer. *)
Variable save : View -> result View.

(** POST /api/activities/:id/register, once the validators of the route
    have passed; [found] is the outcome of [Activity.findById].  A call
    of [find] on [undefined] throws a TypeError, which the [catch] of the
    handler hands to [next]. *)
Definition postRegister (now : Z) (user : nat) (notes emergencyContact : string)
    (found : option View) : Response * option View :=
  match found with
  | None => (Json 404 "Activity not found", found)
  | Some activity =>
      if in_the_past now activity
      then (Json 400 "Cannot register for past activities", found)
      else
        match registrations activity with
        | None => (Failed "TypeError", found)
        | Some regs =>
            match find (of_user user) regs with
            | Some _ =>
                (Json 400 "You are already registered for this activity", found)
            | None =>
                if at_capacity activity regs
                then (Json 400 "This activity is at full capacity", found)
                else
                  match save (with_registrations
                                (regs ++
                                 [mkRegistration user now notes emergencyContact None])
                                activity) with
                  | Ok stored =>
                      (Json 200 "Successfully registered for activity", Some stored)
                  | Err msg => (Failed msg, found)
                  end
            end
        end
  end.

(** DELETE /api/activities/:id/register; [findIndex] on [undefined]
    throws as [find] does. *)
Definition deleteRegister (now : Z) (user : nat) (found : option View)
    : Response * option View :=
  match found with
  | None => (Json 404 "Activity not found", found)
  | Some activity =>
      if in_the_past now activity
      then (Json 400 "Cannot unregister from past activities", found)
      else
        match registrations activity with
        | None => (Failed "TypeError", found)
        | Some regs =>
            match find (of_user user) regs with
            | None => (Json 400 "You are not registered for this activity", found)
            | Some _ =>
                match save (with_registrations
                              (remove_first (of_user user) regs) activity) with
                | Ok stored =>
                    (Json 200 "Successfully unregistered from activity", Some stored)
                | Err msg => (Failed msg, found)
                end
            end
        end
  end.

End Handlers.

End ActivityRoutes.

(** ** The transition graph of the specification

    Section 4.1 of the specification describes a graph of allowed status
    changes.  The source holds no such table; [spec_transition_allowed]
    writes the described edges down so that the methods can be compared
    with it.  Where the text leaves room (the optional home visit, the
    return from [on-hold]) every reading is admitted. *)

Module SpecGraph.
Import Adoption.

Definition terminal (s : Status) : bool :=
  match s with
  | Rejected | Withdrawn | AdoptionCompleted | AdoptionReturned => true
  | _ => false
  end.

Definition spec_transition_allowed (from to : Status) : bool :=
  match from, to with
  | Submitted, UnderReview
  | UnderReview, Approved
  | Approved, MeetScheduled
  | MeetScheduled, MeetCompleted
  | MeetCompleted, HomeVisitScheduled
  | MeetCompleted, HomeVisitCompleted
  | MeetCompleted, AdoptionApproved
  | HomeVisitScheduled, HomeVisitCompleted
  | HomeVisitCompleted, AdoptionApproved
  | AdoptionApproved, AdoptionCompleted
  | AdoptionCompleted, AdoptionReturned => true
  | _, Rejected | _, Withdrawn | _, OnHold => negb (terminal from)
  | OnHold, _ => negb (terminal to)
  | _, _ => false
  end.

(** [paymentStatus] as the specification derives it from [paid] and
    [total]. *)
Definition spec_payment_status (paid total : Z) : PaymentStatus :=
  if total <=? paid then Paid
  else if 0 <? paid then Partial
  else Pending.

End SpecGraph.

(** ** Acting users *)

Module Users.

(** [role] enum of the User schema. *)
Inductive Role : Type := RoleUser | RoleShelter | RoleAdmin.

Record User : Type := mkUser {
  u_id : nat;
  u_role : Role
}.

End Users.

(** ** Sample documents *)

Module Samples.

(** An application just submitted: pet 1, applicant 7, fee 200. *)
Definition submitted_app : Adoption.Doc :=
  Adoption.mkDoc 7 1 3 Adoption.Submitted []
    [Adoption.mkEntry Adoption.Submitted 0 None None]
    (Adoption.mkFees 200 [] 200 0 Adoption.Pending None None) [].

(** The same application at [adoption-approved], with 50 already paid. *)
Definition approved_app : Adoption.Doc :=
  Adoption.mkDoc 7 1 3 Adoption.AdoptionApproved []
    [Adoption.mkEntry Adoption.Submitted 0 None None;
     Adoption.mkEntry Adoption.AdoptionApproved 40 None None]
    (Adoption.mkFees 180 [Adoption.mkFee "microchip" 20] 200 50
       Adoption.Partial (Some "cash") (Some "txn0")) [].

(** An application waiting for its meet-and-greet (visit 11). *)
Definition meet_app : Adoption.Doc :=
  Adoption.mkDoc 7 1 3 Adoption.MeetScheduled
    [Adoption.mkVisit 11 Adoption.MeetAndGreet 500 Adoption.VScheduled None None None]
    [Adoption.mkEntry Adoption.Submitted 0 None None;
     Adoption.mkEntry Adoption.MeetScheduled 30 None None]
    (Adoption.mkFees 200 [] 200 0 Adoption.Pending None None) [].

(** A published activity with room for two, nobody registered. *)
Definition open_activity : Activity.Doc := Activity.fresh 1000 2000 2.


Definition pet1 : AdoptionRoutes.Pet :=
  AdoptionRoutes.mkPet 1 AdoptionRoutes.Available 3 None None [].

End Samples.

(** ** The Adoption model: virtuals and next steps *)

Module AdoptionViews.
Import Adoption.


(** [isCompleted] virtual. *)
Definition isCompleted (d : Doc) : bool :=
  status_eqb (status d) AdoptionCompleted.

(** [getNextSteps()]: [steps[this.status] || []]. *)
Definition getNextSteps (d : Doc) : list string :=
  match status d with
  | Submitted =>
      ["Review application"; "Contact references"; "Schedule meet & greet"]
  | UnderReview => ["Complete reference checks"; "Schedule meet & greet"]
  | Approved => ["Schedule meet & greet"]
  | MeetScheduled => ["Complete meet & greet"]
  | MeetCompleted => ["Schedule home visit (if required)"; "Finalize adoption"]
  | HomeVisitScheduled => ["Complete home visit"]
  | HomeVisitCompleted => ["Approve adoption"; "Process payment"]
  | AdoptionApproved => ["Process payment"; "Sign contract"; "Schedule pickup"]
  | AdoptionCompleted => ["Follow-up calls"; "Support as needed"]
  | _ => []
  end.



End AdoptionViews.

(** ** The Activity model: registration window *)

Module ActivityViews.
Import Activity.

(** [status] enum of the Activity schema, a field the [Doc] record leaves
    out; the virtual below receives it as an argument. *)
Inductive ActivityStatus : Type :=
| Draft | Published | ActivityCancelled | ActivityCompleted | Postponed.

Definition is_published (s : ActivityStatus) : bool :=
  match s with Published => true | _ => false end.

(** [registrationOpen] virtual, read at time [now]. *)
Definition registrationOpen (now : Z) (status : ActivityStatus) (a : Doc) : bool :=
  let deadlinePassed :=
    match registration_deadline a with
    | Some deadline => deadline <? now
    | None => false
    end in
  let eventStarted := date_start a <? now in
  registration_required a
  && negb deadlinePassed
  && negb eventStarted
  && is_published status
  && negb (isFullyBooked a).

(** [duration] virtual, in milliseconds. *)
Definition duration (a : Doc) : Z := date_end a - date_start a.

End ActivityViews.

(** ** Activity model: a further consistency predicate *)

Module ActivityInvariant.
Import Activity.

(** Nobody waits while a seat is free. *)
Definition no_idle_seat (a : Doc) : Prop :=
  0 < c_waitlist (capacity a) -> c_current (capacity a) = c_max (capacity a).

(** An activity whose seat counter has run past its maximum. *)
Definition overbooked_activity : Doc :=
  mkDoc 1000 2000 (mkCapacity 2 3 0)
    [mkParticipant 1 10 Registered; mkParticipant 2 20 Registered;
     mkParticipant 3 30 Registered]
    true (Some 500).

End ActivityInvariant.

(** ** Authentication and authorisation middleware *)

Module Auth.
Import Users.

(** The stored string of a role. *)
Definition role_name (r : Role) : string :=
  match r with
  | RoleUser => "user"
  | RoleShelter => "shelter"
  | RoleAdmin => "admin"
  end.

(** What a middleware does: hand over to the next handler or answer. *)
Inductive Effect : Type :=
| CallNext
| Reply (code : nat) (message : string).

(** [authorize(...roles)]; [user] is [req.user]. *)
Definition authorize (roles : list string) (user : option User) : Effect :=
  match user with
  | None => Reply 401 "Not authorized to access this route"
  | Some u =>
      if existsb (String.eqb (role_name (u_role u))) roles
      then CallNext
      else Reply 403 ("User role " ++ role_name (u_role u)
                      ++ " is not authorized to access this route")%string
  end.

(** The guard the status, activity and registration-management routes
    install. *)
Definition shelter_admin_guard : option User -> Effect :=
  authorize ["shelter_admin"; "admin"].

(** [req.params.userId || req.body[resourceField] || req.user.id], an
    absent or empty value being [None]. *)
Definition resource_user (paramsUserId bodyField : option nat) (own : nat) : nat :=
  match paramsUserId, bodyField with
  | Some id, _ => id
  | None, Some id => id
  | None, None => own
  end.

(** [authorizeOwnerOrStaff(resourceField)] *)
Definition authorizeOwnerOrStaff (paramsUserId bodyField : option nat)
    (user : option User) : Effect :=
  match user with
  | None => Reply 401 "Not authorized to access this route"
  | Some u =>
      match u_role u with
      | RoleAdmin => CallNext
      | RoleShelter => CallNext
      | RoleUser =>
          if Nat.eqb (u_id u) (resource_user paramsUserId bodyField (u_id u))
          then CallNext
          else Reply 403 "Not authorized to access this resource"
      end
  end.

(** *** [sensitiveOperationLimit]

    The [Map] the closure keeps: the times of the attempts recorded for a
    key. *)
Definition Attempts : Type := string -> option (list Z).

Definition no_attempts : Attempts := fun _ => None.

Definition attempts_set (key : string) (times : list Z) (m : Attempts) : Attempts :=
  fun k => if String.eqb k key then Some times else m k.

(** [attempts.get(key) || []] *)
Definition attempts_of (m : Attempts) (key : string) : list Z :=
  match m key with Some times => times | None => [] end.

(** [Math.ceil(x / 1000)] on integers. *)
Definition ceil_seconds (x : Z) : Z := - ((- x) / 1000).

Inductive Verdict : Type :=
| Passed
| TooMany (retryAfter : option Z).

Definition passed (v : Verdict) : bool :=
  match v with Passed => true | TooMany _ => false end.

(** One request through the limiter; [key] is [req.ip] followed by the
    user's id.  [retryAfter] is [None] where the script computes it from
    the first element of an empty array. *)
Definition sensitiveOperationLimit (maxAttempts windowMs : Z) (key : string)
    (now : Z) (attempts : Attempts) : Verdict * Attempts :=
  let windowStart := now - windowMs in
  let attempts :=
    match attempts key with
    | Some times =>
        attempts_set key (filter (fun time => windowStart <? time) times) attempts
    | None => attempts
    end in
  let currentAttempts := attempts_of attempts key in
  if maxAttempts <=? Z.of_nat (List.length currentAttempts)
  then
    (TooMany (match currentAttempts with
              | first :: _ => Some (ceil_seconds (first + windowMs - now))
              | [] => None
              end),
     attempts)
  else (Passed, attempts_set key (currentAttempts ++ [now]) attempts).

(** A request as the limiter sees it. *)
Record Call : Type := mkCall {
  call_key : string;
  call_time : Z
}.

(** The requests the limiter lets through, in order. *)
Fixpoint let_through (maxAttempts windowMs : Z) (calls : list Call)
    (attempts : Attempts) : list Call :=
  match calls with
  | [] => []
  | c :: rest =>
      let '(verdict, attempts) :=
        sensitiveOperationLimit maxAttempts windowMs (call_key c) (call_time c)
          attempts in
      (if passed verdict then [c] else [])
      ++ let_through maxAttempts windowMs rest attempts
  end.

(** The requests of [calls] with the key of [c] that fall in the window
    ending at [c]. *)
Definition in_window (windowMs : Z) (c c' : Call) : bool :=
  String.eqb (call_key c') (call_key c)
  && (call_time c - windowMs <? call_time c')
  && (call_time c' <=? call_time c).

Definition window_count (windowMs : Z) (c : Call) (calls : list Call) : nat :=
  List.length (filter (in_window windowMs c) calls).

(** The times recorded in [calls] under a key. *)
Definition times_of (key : string) (calls : list Call) : list Z :=
  map call_time (filter (fun c => String.eqb (call_key c) key) calls).

(** What the limiter holds after having let [history] through, the last
    request having come at [t]. *)
Definition tracks (windowMs t : Z) (attempts : Attempts) (history : list Call) : Prop :=
  forall key,
    exists threshold,
      threshold <= t - windowMs /\
      attempts_of attempts key =
        filter (fun time => threshold <? time) (times_of key history).

Definition every_window_bounded (maxAttempts windowMs : Z) (history : list Call) : Prop :=
  forall c, In c history ->
    Z.of_nat (window_count windowMs c history) <= maxAttempts.

Definition by_time (calls : list Call) : Prop :=
  StronglySorted (fun c c' => call_time c <= call_time c') calls.

End Auth.

(** ** The [protect] middleware *)

Module Protect.
Import Users Auth.

(** [s.split(' ')]: the pieces between single spaces, empty pieces
    included. *)
Fixpoint split_spaces_from (piece s : string) : list string :=
  match s with
  | EmptyString => [piece]
  | String c rest =>
      if String.eqb (String c EmptyString) " "
      then piece :: split_spaces_from EmptyString rest
      else split_spaces_from (piece ++ String c EmptyString)%string rest
  end.

Definition split_spaces (s : string) : list string :=
  split_spaces_from EmptyString s.

(** A stored account as [protect] reads it. *)
Record Account : Type := mkAccount {
  acc_user : User;
  acc_isActive : bool
}.

(** The outcome of [jwt.verify]: the decoded user id, or the name of the
    error thrown. *)
Inductive Verified : Type :=
| Decoded (id : nat)
| Threw (name : string).

Definition refusal (name : string) : Effect :=
  if String.eqb name "JsonWebTokenError" then Reply 401 "Invalid token"
  else if String.eqb name "TokenExpiredError" then Reply 401 "Token expired"
  else Reply 401 "Not authorized to access this route".

(** A token the final test [!token] takes for absent. *)
Definition no_token (token : option string) : bool :=
  match token with
  | None => true
  | Some t => String.eqb t ""
  end.

Section Middleware.

(** [jwt.verify(token, secret)], the token possibly undefined, and
    [User.findById(id).select('-password')], which may throw as well
    ([Err] carries the error's name). *)
Variable verify : option string -> Verified.
Variable findById : nat -> result (option Account).

(** [protect]: the effects carried out, in order, and the account left
    in [req.user]. *)
Definition protect (authorization : option string)
    : list Effect * option Account :=
  let bearer :=
    match authorization with
    | Some header => if String.prefix "Bearer" header then Some header else None
    | None => None
    end in
  match bearer with
  | Some header =>
      let token := nth_error (split_spaces header) 1 in
      match verify token with
      | Threw name => ([refusal name], None)
      | Decoded id =>
          match findById id with
          | Err name => ([refusal name], None)
          | Ok None => ([Reply 401 "User not found"], None)
          | Ok (Some account) =>
              if negb (acc_isActive account)
              then ([Reply 401 "Account is deactivated"], Some account)
              else
                (CallNext ::
                 (if no_token token
                  then [Reply 401 "Not authorized to access this route, no token provided"]
                  else []),
                 Some account)
          end
      end
  | None =>
      ([Reply 401 "Not authorized to access this route, no token provided"], None)
  end.

End Middleware.

(** A verifier for the examples: the token "good" belongs to user 7,
    "old" has expired, anything else is malformed. *)
Definition sample_verify (token : option string) : Verified :=
  match token with
  | Some t =>
      if String.eqb t "good" then Decoded 7
      else if String.eqb t "old" then Threw "TokenExpiredError"
      else Threw "JsonWebTokenError"
  | None => Threw "JsonWebTokenError"
  end.

Definition sample_accounts (id : nat) : result (option Account) :=
  if Nat.eqb id 7 then Ok (Some (mkAccount (mkUser 7 RoleUser) true))
  else Ok None.

End Protect.

(** ** The error-handling middleware *)

Module ErrorHandler.

(** [err.code] is a number (a MongoDB code) or a string. *)
Inductive Code : Type :=
| NumCode (n : Z)
| TextCode (s : string).

Record ValidatorError : Type := mkValidatorError {
  ve_path : string;
  ve_message : string
}.

(** The properties of the error the handler looks at; an absent
    property is [None].  [err_keyValue] holds the keys of [err.keyValue],
    [err_errors] the values of [err.errors]. *)
Record Error : Type := mkError {
  err_name : string;
  err_message : option string;
  err_code : option Code;
  err_status : option Z;
  err_statusCode : option Z;
  err_keyValue : option (list string);
  err_errors : option (list ValidatorError);
  err_field : option string;
  err_retryAfter : option Z;
  err_stack : option string
}.

(** [response.errors]: the path-to-message object built for a validation
    error, or [err.errors] itself where the copy of the error was kept. *)
Inductive ErrorsPayload : Type :=
| Messages (byPath : list (string * string))
| Raw (errors : list ValidatorError).

(** The local [error] object. *)
Record Working : Type := mkWorking {
  w_message : option string;
  w_statusCode : option Z;
  w_errors : option ErrorsPayload;
  w_field : option string;
  w_retryAfter : option Z
}.

(** [{ message, statusCode }] *)
Definition plain (message : string) (statusCode : Z) : Working :=
  mkWorking (Some message) (Some statusCode) None None None.

(** JavaScript truthiness of an optional number and of an optional
    string. *)
Definition truthy_number (o : option Z) : option Z :=
  match o with
  | Some n => if n =? 0 then None else Some n
  | None => None
  end.

Definition truthy_text (o : option string) : option string :=
  match o with
  | Some s => if String.eqb s "" then None else Some s
  | None => None
  end.

Definition or_number (o : option Z) (default : Z) : Z :=
  match truthy_number o with Some n => n | None => default end.

Definition has_code_number (n : Z) (err : Error) : bool :=
  match err_code err with Some (NumCode m) => m =? n | _ => false end.

Definition has_code_text (s : string) (err : Error) : bool :=
  match err_code err with Some (TextCode t) => String.eqb t s | _ => false end.

Definition has_status (n : Z) (err : Error) : bool :=
  match err_status err with Some m => m =? n | None => false end.

Definition named (name : string) (err : Error) : bool :=
  String.eqb (err_name err) name.

(** [errors[val.path] = val.message] *)
Fixpoint assign (path message : string) (o : list (string * string))
    : list (string * string) :=
  match o with
  | [] => [(path, message)]
  | (p, m) :: rest =>
      if String.eqb p path then (p, message) :: rest
      else (p, m) :: assign path message rest
  end.

Definition messages_by_path (errors : list ValidatorError) : list (string * string) :=
  fold_left (fun o val => assign (ve_path val) (ve_message val) o) errors [].

Definition duplicate_message (field : option string) : string :=
  match field with
  | Some f =>
      if String.eqb f "email" then "Email address is already registered"
      else if String.eqb f "name" then "Name is already taken"
      else "Duplicate field value entered"
  | None => "Duplicate field value entered"
  end.

(** The chain of [if] statements, in source order; [Err] where the
    handler itself throws ([Object.keys] or [Object.values] of
    [undefined]). *)
Definition classify (err : Error) : result Working :=
  let error :=
    mkWorking (err_message err) (err_statusCode err)
      (option_map Raw (err_errors err)) (err_field err) (err_retryAfter err) in
  let error :=
    if named "CastError" err then plain "Resource not found" 404 else error in
  error <-
    (if has_code_number 11000 err
     then
       match err_keyValue err with
       | Some keys =>
           let field := hd_error keys in
           Ok (mkWorking (Some (duplicate_message field)) (Some 400) None field None)
       | None => Err "TypeError"
       end
     else Ok error) ;;
  error <-
    (if named "ValidationError" err
     then
       match err_errors err with
       | Some errors =>
           Ok (mkWorking (Some "Validation error") (Some 400)
                 (Some (Messages (messages_by_path errors))) None None)
       | None => Err "TypeError"
       end
     else Ok error) ;;
  let error :=
    if named "JsonWebTokenError" err then plain "Invalid token" 401 else error in
  let error :=
    if named "TokenExpiredError" err then plain "Token expired" 401 else error in
  let error :=
    if has_code_text "LIMIT_FILE_SIZE" err
    then plain "File size too large" 400 else error in
  let error :=
    if has_code_text "LIMIT_UNEXPECTED_FILE" err
    then plain "Unexpected file field" 400 else error in
  let error :=
    if named "MongooseError" err || named "MongoError" err
    then plain "Database connection error" 500 else error in
  let error :=
    if has_code_text "ETIMEDOUT" err then plain "Request timeout" 408 else error in
  let error :=
    if has_status 429 err
    then mkWorking (Some "Too many requests. Please try again later.") (Some 429)
           None None (Some (or_number (err_retryAfter err) 900))
    else error in
  Ok error.

(** What is sent: the status, the JSON body and the [Retry-After]
    header. *)
Record Response : Type := mkResponse {
  res_status : Z;
  res_message : string;
  res_error : option Error;
  res_stack : option string;
  res_errors : option ErrorsPayload;
  res_field : option string;
  res_retryAfter : option Z;
  res_retryAfterHeader : option Z
}.

(** [errorHandler(err, req, res, next)]; [development] is
    [process.env.NODE_ENV === 'development']. *)
Definition errorHandler (development : bool) (err : Error) : result Response :=
  error <- classify err ;;
  let statusCode :=
    match truthy_number (w_statusCode error) with
    | Some n => n
    | None => or_number (err_statusCode err) 500
    end in
  let message :=
    match truthy_text (w_message error) with
    | Some m => m
    | None => "Server Error"
    end in
  Ok (mkResponse statusCode message
        (if development then Some err else None)
        (if development then err_stack err else None)
        (w_errors error)
        (truthy_text (w_field error))
        (truthy_number (w_retryAfter error))
        (truthy_number (w_retryAfter error))).

(** Whether the handler throws on this error. *)
Definition unreadable (err : Error) : bool :=
  (has_code_number 11000 err
   && match err_keyValue err with None => true | Some _ => false end)
  || (named "ValidationError" err
      && match err_errors err with None => true | Some _ => false end).

(** A rate-limit error as express-rate-limit style middleware raises
    it. *)
Definition rate_limit_error : Error :=
  mkError "Error" (Some "Too many requests") None (Some 429) None None None
    None None (Some "Error: Too many requests").

End ErrorHandler.

(** ** GET /api/adoptions: filters and pages *)

Module Listing.
Import Users.

(** [.skip((page - 1) * limit).limit(limit)] on the ordered matches. *)
Definition page_of {A : Type} (page limit : nat) (found : list A) : list A :=
  firstn limit (skipn ((page - 1) * limit) found).

(** [Math.ceil(total / limit)] *)
Definition totalPages (total limit : nat) : nat :=
  if Nat.eqb (total mod limit) 0 then (total / limit)%nat
  else S (total / limit).

(** [req.query]; an absent or empty parameter is [None]. *)
Record Params : Type := mkParams {
  pr_page : option nat;
  pr_limit : option nat;
  pr_status : option string;
  pr_shelter : option nat;
  pr_pet : option nat;
  pr_adopter : option nat
}.

(** The filter object handed to [find] and [countDocuments]. *)
Record Query : Type := mkQuery {
  qy_adopter : option nat;
  qy_status : option string;
  qy_shelter : option nat;
  qy_pet : option nat
}.

Definition is_plain_user (r : Role) : bool :=
  match r with RoleUser => true | _ => false end.

Definition build_query (user : User) (params : Params) : Query :=
  if is_plain_user (u_role user)
  then mkQuery (Some (u_id user)) None None None
  else mkQuery (pr_adopter params) (pr_status params) (pr_shelter params)
               (pr_pet params).

(** The query validators of the route. *)
Definition listable_statuses : list string :=
  ["pending"; "approved"; "rejected"; "completed"; "cancelled"].

Definition valid_params (params : Params) : bool :=
  match pr_page params with Some p => Nat.leb 1 p | None => true end
  && match pr_limit params with
     | Some l => Nat.leb 1 l && Nat.leb l 100
     | None => true
     end
  && match pr_status params with
     | Some s => existsb (String.eqb s) listable_statuses
     | None => true
     end.

Section Handler.

(** The documents the store returns.  Which documents a filter selects
    is the store's business: the handler only builds the filter. *)
Context {Stored : Type}.

(** [Adoption.find(query)] with its [populate] and [sort] calls: the
    documents selected, in the order of the sort, before [skip] and
    [limit]. *)
Variable matching : Query -> list Stored.

(** [Adoption.countDocuments(query)] *)
Variable countDocuments : Query -> nat.

Record Page : Type := mkPage {
  pg_count : nat;
  pg_total : nat;
  pg_totalPages : nat;
  pg_currentPage : nat;
  pg_adoptions : list Stored
}.

Inductive Listed : Type :=
| Invalid (message : string)
| Found (page : Page).

Definition getAdoptions (user : User) (params : Params) : Listed :=
  if negb (valid_params params) then Invalid "Invalid query parameters"
  else
    let page := match pr_page params with Some p => p | None => 1%nat end in
    let limit := match pr_limit params with Some l => l | None => 10%nat end in
    let query := build_query user params in
    let adoptions := page_of page limit (matching query) in
    let total := countDocuments query in
    Found (mkPage (List.length adoptions) total (totalPages total limit) page
                  adoptions).

(** The [adoptions] array of a reply; a 400 reply has none. *)
Definition listed (reply : Listed) : list Stored :=
  match reply with
  | Found page => pg_adoptions page
  | Invalid _ => []
  end.

End Handler.

(** A store that selects the same three documents for every filter. *)
Definition three_matches (q : Query) : list nat := [11; 12; 13]%nat.

Definition count_three (q : Query) : nat := 3.

End Listing.

(** ** DELETE and PUT /api/adoptions/:id *)

Module OwnerRoutes.
Import Users Auth AdoptionRoutes.

(** [adoptionDetails]; an absent field is [None]. *)
Record Details : Type := mkDetails {
  dt_message : option string;
  dt_experience : option string;
  dt_livingSpace : option string;
  dt_hasOtherPets : option bool;
  dt_hasChildren : option bool
}.

(** What the property reads of these handlers give on the document
    [Adoption.findById] returned, [None] being [undefined]. *)
Record Owned : Type := mkOwned {
  ow_adopter : option nat;
  ow_status : string;
  ow_details : option Details;
  ow_cancelledDate : option Z
}.

(** The reads on a document of the Adoption model.  The schema keeps the
    applicant under [application.applicant] and declares no [adopter],
    no [adoptionDetails] and no [cancelledDate]: these reads give
    [undefined]; [status] is the stored status string. *)
Definition read (d : Adoption.Doc) : Owned :=
  mkOwned None (Adoption.status_name (Adoption.status d)) None None.

(** [['admin', 'shelter_admin'].includes(req.user.role)] *)
Definition isAdmin (user : User) : bool :=
  existsb (String.eqb (role_name (u_role user))) ["admin"; "shelter_admin"].

Definition cancellable : list string := ["pending"; "approved"].

Definition cancelled (now : Z) (adoption : Owned) : Owned :=
  mkOwned (ow_adopter adoption) "cancelled" (ow_details adoption) (Some now).

(** [{ ...stored, ...sent }] *)
Definition merge_details (stored sent : Details) : Details :=
  mkDetails
    (or_else (dt_message sent) (dt_message stored))
    (or_else (dt_experience sent) (dt_experience stored))
    (or_else (dt_livingSpace sent) (dt_livingSpace stored))
    (or_else (dt_hasOtherPets sent) (dt_hasOtherPets stored))
    (or_else (dt_hasChildren sent) (dt_hasChildren stored)).

Definition with_details (details : Details) (adoption : Owned) : Owned :=
  mkOwned (ow_adopter adoption) (ow_status adoption) (Some details)
          (ow_cancelledDate adoption).

Section Handlers.

Variable save : Owned -> result Owned.

(** DELETE /api/adoptions/:id.  [adoption.adopter.toString()] on an
    [undefined] adopter throws a TypeError, which the [catch] of the
    handler hands to [next]. *)
Definition deleteAdoption (now : Z) (user : User) (found : option Owned)
    : Response * option Owned :=
  match found with
  | None => (Json 404 "Adoption request not found", found)
  | Some adoption =>
      match ow_adopter adoption with
      | None => (Failed "TypeError", found)
      | Some adopter =>
          let isOwner := Nat.eqb adopter (u_id user) in
          if negb isOwner && negb (isAdmin user)
          then (Json 403 "Not authorized to cancel this adoption request", found)
          else if negb (existsb (String.eqb (ow_status adoption)) cancellable)
          then (Json 400 "Can only cancel pending or approved adoption requests",
                found)
          else
            match save (cancelled now adoption) with
            | Ok stored =>
                (Json 200 "Adoption request cancelled successfully", Some stored)
            | Err msg => (Failed msg, found)
            end
      end
  end.

(** PUT /api/adoptions/:id, once the validators of the route have
    passed; [sent] is [req.body.adoptionDetails]. *)
Definition putAdoption (user : User) (sent : option Details)
    (found : option Owned) : Response * option Owned :=
  match found with
  | None => (Json 404 "Adoption request not found", found)
  | Some adoption =>
      match ow_adopter adoption with
      | None => (Failed "TypeError", found)
      | Some adopter =>
          if negb (Nat.eqb adopter (u_id user))
          then (Json 403 "Not authorized to update this adoption request", found)
          else if negb (String.eqb (ow_status adoption) "pending")
          then (Json 400 "Can only update pending adoption requests", found)
          else
            let merged :=
              match sent, ow_details adoption with
              | Some details, Some stored =>
                  Ok (with_details (merge_details stored details) adoption)
              | Some _, None => Err "TypeError"
              | None, _ => Ok adoption
              end in
            match merged with
            | Err msg => (Failed msg, found)
            | Ok adoption =>
                match save adoption with
                | Ok stored =>
                    (Json 200 "Adoption request updated successfully", Some stored)
                | Err msg => (Failed msg, found)
                end
            end
      end
  end.

End Handlers.

End OwnerRoutes.


(** ** The Pet model: images *)

Module PetImages.

Record Image : Type := mkImage {
  url : string;
  caption : option string;
  isPrimary : bool
}.

Definition with_isPrimary (b : bool) (img : Image) : Image :=
  mkImage (url img) (caption img) b.

(** The [forEach] of the pre-save hook, [hasPrimary] threaded through:
    the first primary image raises the flag, later ones are demoted. *)
Fixpoint keep_first_primary (hasPrimary : bool) (images : list Image)
    : list Image * bool :=
  match images with
  | [] => ([], hasPrimary)
  | img :: rest =>
      if isPrimary img && negb hasPrimary then
        let '(rest', seen) := keep_first_primary true rest in
        (img :: rest', seen)
      else if isPrimary img && hasPrimary then
        let '(rest', seen) := keep_first_primary hasPrimary rest in
        (with_isPrimary false img :: rest', seen)
      else
        let '(rest', seen) := keep_first_primary hasPrimary rest in
        (img :: rest', seen)
  end.

(** [petSchema.pre('save')] on the images. *)
Definition pre_save (images : list Image) : list Image :=
  match images with
  | [] => []
  | _ :: _ =>
      let '(images', hasPrimary) := keep_first_primary false images in
      if negb hasPrimary then
        match images' with
        | first :: rest => with_isPrimary true first :: rest
        | [] => []
        end
      else images'
  end.

(** [primaryImage] virtual; [None] is [null]. *)
Definition primaryImage (images : list Image) : option string :=
  match find isPrimary images with
  | Some primaryImg => Some (url primaryImg)
  | None =>
      match images with
      | first :: _ => Some (url first)
      | [] => None
      end
  end.

Definition primaries (images : list Image) : nat :=
  List.length (filter isPrimary images).

(** Three images, the last two marked primary. *)
Definition gallery : list Image :=
  [mkImage "a.jpg" None false; mkImage "b.jpg" None true;
   mkImage "c.jpg" None true].

End PetImages.

(** ** The Shelter model: staff and volunteers *)

Module ShelterTeam.

Record Staff : Type := mkStaff {
  sf_user : nat;
  sf_role : string;
  sf_startDate : Z;
  sf_isActive : bool
}.

Record Volunteer : Type := mkVolunteer {
  vl_user : nat;
  vl_roles : list string;
  vl_startDate : Z;
  vl_totalHours : Z;
  vl_isActive : bool
}.

(** The part of the shelter document these methods read and write. *)
Record Doc : Type := mkDoc {
  staff : list Staff;
  volunteers : list Volunteer
}.

Definition is_staff (userId : nat) (s : Staff) : bool :=
  Nat.eqb (sf_user s) userId.

Definition is_volunteer (userId : nat) (v : Volunteer) : bool :=
  Nat.eqb (vl_user v) userId.

(** [[...new Set(roles)]]: the first occurrence of each role, in order. *)
Fixpoint unique (seen : list string) (roles : list string) : list string :=
  match roles with
  | [] => []
  | r :: rest =>
      if existsb (String.eqb r) seen then unique seen rest
      else r :: unique (r :: seen) rest
  end.

Definition with_roles (roles : list string) (v : Volunteer) : Volunteer :=
  mkVolunteer (vl_user v) (unique [] (vl_roles v ++ roles)) (vl_startDate v)
              (vl_totalHours v) true.

Section Methods.

(** [this.save()]: validation and storage, owned by Mongoose. *)
Variable save : Doc -> result Doc.

(** [now] is the [Date.now] default of [startDate]. *)
Definition addStaff (now : Z) (userId : nat) (role : string) (shelter : Doc)
    : result Doc :=
  save (mkDoc (filter (fun s => negb (is_staff userId s)) (staff shelter)
               ++ [mkStaff userId role now true])
              (volunteers shelter)).

Definition addVolunteer (now : Z) (userId : nat) (roles : list string)
    (shelter : Doc) : result Doc :=
  match find (is_volunteer userId) (volunteers shelter) with
  | Some _ =>
      save (mkDoc (staff shelter)
                  (update_first (is_volunteer userId) (with_roles roles)
                                (volunteers shelter)))
  | None =>
      save (mkDoc (staff shelter)
                  (volunteers shelter ++ [mkVolunteer userId roles now 0 true]))
  end.

End Methods.

(** [activeVolunteers] and [activeStaff] virtuals. *)
Definition activeVolunteers (shelter : Doc) : nat :=
  List.length (filter vl_isActive (volunteers shelter)).

Definition activeStaff (shelter : Doc) : nat :=
  List.length (filter sf_isActive (staff shelter)).

Definition keep (shelter : Doc) : result Doc := Ok shelter.

(** A shelter where user 4 is entered twice as staff and user 5 is a
    retired volunteer. *)
Definition small_shelter : Doc :=
  mkDoc [mkStaff 4 "manager" 10 true; mkStaff 6 "caregiver" 20 true;
         mkStaff 4 "admin" 30 false]
        [mkVolunteer 5 ["transport"; "training"] 40 12 false].

End ShelterTeam.

(** * Properties *)

(** ** Lists *)


Lemma update_first_none {A : Type} (p : A -> bool) (f : A -> A) (l : list A) :
  find p l = None -> update_first p f l = l.
Proof.
  induction l as [|x r IH]; simpl; [reflexivity|].
  destruct (p x); [discriminate | intros H; now rewrite IH].
Qed.

(** After the in-place assignment, looking the element up again yields
    the updated element, provided the update keeps it findable. *)
Lemma find_update_first {A : Type} (p : A -> bool) (f : A -> A) (l : list A) (x : A) :
  (forall y, p y = true -> p (f y) = true) ->
  find p l = Some x ->
  find p (update_first p f l) = Some (f x).
Proof.
  intros Hp.
  induction l as [|y r IH]; simpl; [discriminate|].
  destruct (p y) eqn:E; simpl.
  - intros [= ->]. now rewrite (Hp _ E).
  - intros H. rewrite E. now apply IH.
Qed.

(** ** Adoption lifecycle *)

Module AdoptionFacts.
Import Adoption.

Lemma status_eqb_eq (a b : Status) : status_eqb a b = true <-> a = b.
Proof. unfold status_eqb; destruct (Status_eq_dec a b); split; congruence. Qed.

Lemma status_eqb_refl (a : Status) : status_eqb a a = true.
Proof. now apply status_eqb_eq. Qed.

Lemma status_eqb_neq (a b : Status) : status_eqb a b = false <-> a <> b.
Proof. unfold status_eqb; destruct (Status_eq_dec a b); split; congruence. Qed.

(** The fold of the hook is the sum of the amounts. *)
Lemma fold_amounts_from (l : list AdditionalFee) (acc : Z) :
  fold_left (fun sum fee => sum + af_amount fee) l acc = acc + sum_amounts l.
Proof.
  revert acc; induction l as [|fee r IH]; intros acc; simpl.
  - unfold sum_amounts; simpl; lia.
  - rewrite IH. unfold sum_amounts; simpl. lia.
Qed.

Lemma reduce_amounts_sum (l : list AdditionalFee) :
  reduce_amounts l = sum_amounts l.
Proof. unfold reduce_amounts. now rewrite fold_amounts_from. Qed.

(** What [save] stores, field by field. *)
Lemma save_status now w : status (save now w) = status (doc w).
Proof. unfold save, pre_save; destruct (status_dirty w); reflexivity. Qed.

Lemma save_visits now w : visits (save now w) = visits (doc w).
Proof. unfold save, pre_save; destruct (status_dirty w); reflexivity. Qed.

Lemma save_fees now w : fees (save now w) = pre_save_fees (fees (doc w)).
Proof. unfold save, pre_save; destruct (status_dirty w); reflexivity. Qed.

Lemma save_timeline now w :
  timeline (save now w) =
  timeline (doc w) ++
  (if status_dirty w then [mkEntry (status (doc w)) now None None] else []).
Proof.
  unfold save, pre_save; destruct (status_dirty w); simpl;
    [reflexivity | now rewrite app_nil_r].
Qed.

Lemma save_total now w :
  f_total (fees (save now w)) =
  f_adoption (fees (doc w)) + sum_amounts (f_additional (fees (doc w))).
Proof. rewrite save_fees. simpl. now rewrite reduce_amounts_sum. Qed.



(** The timeline written by [updateStatus]. *)
Lemma updateStatus_timeline now newStatus notes updatedBy d :
  exists d',
    updateStatus now newStatus notes updatedBy d = Ok d' /\
    status d' = newStatus /\
    timeline d' =
      timeline d ++
      mkEntry newStatus now (Some notes) updatedBy ::
      (if status_eqb newStatus (status d) then []
       else [mkEntry newStatus now None None]).
Proof.
  eexists; split; [reflexivity|]. split.
  - now rewrite save_status.
  - rewrite save_timeline. simpl.
    destruct (status_eqb newStatus (status d)); simpl;
      rewrite <- app_assoc; reflexivity.
Qed.

(** C1, as amended.  Whatever status is requested, reachable in the
    graph of the specification or not, [updateStatus] does not fail: the
    stored status becomes the requested one and the timeline grows, the
    earlier entries staying in front. *)
Theorem updateStatus_applies_any_status :
  forall now newStatus notes updatedBy d,
  exists d' added,
    updateStatus now newStatus notes updatedBy d = Ok d' /\
    status d' = newStatus /\
    added <> [] /\
    timeline d' = timeline d ++ added.
Proof.
  intros now newStatus notes updatedBy d.
  destruct (updateStatus_timeline now newStatus notes updatedBy d)
    as (d' & Hrun & Hst & Htl).
  exists d'. eexists. repeat split; [exact Hrun | exact Hst | | exact Htl].
  discriminate.
Qed.

(** C1, counterexample.  [submitted] to [adoption-completed] is no edge
    of the graph, yet the update goes through and both status and
    timeline change. *)
Lemma submitted_to_completed_goes_through :
  SpecGraph.spec_transition_allowed (status Samples.submitted_app) AdoptionCompleted = false /\
  exists d',
    updateStatus 100 AdoptionCompleted "" None Samples.submitted_app = Ok d' /\
    status d' = AdoptionCompleted /\
    status d' <> status Samples.submitted_app /\
    timeline d' <> timeline Samples.submitted_app.
Proof.
  split; [reflexivity|].
  eexists; split; [reflexivity|].
  repeat split; vm_compute; discriminate.
Qed.

(** C2, at the failing input.  One call that moves a [submitted]
    application to [under-review] leaves two new timeline entries: the
    one the method pushes and the one the pre-save hook pushes. *)
Theorem updateStatus_logs_transition_twice :
  exists d',
    updateStatus 100 UnderReview "references checked" (Some 9%nat)
      Samples.submitted_app = Ok d' /\
    timeline d' =
      timeline Samples.submitted_app ++
      [mkEntry UnderReview 100 (Some "references checked") (Some 9%nat);
       mkEntry UnderReview 100 None None] /\
    List.length (timeline d') = 3%nat.
Proof.
  eexists; split; [reflexivity|]. split; reflexivity.
Qed.

(** The same in general: two entries whenever the status really changes,
    one when it is set to the value it already has. *)
Lemma updateStatus_timeline_length now newStatus notes updatedBy d :
  exists d',
    updateStatus now newStatus notes updatedBy d = Ok d' /\
    List.length (timeline d') =
      (List.length (timeline d) +
       (if status_eqb newStatus (status d) then 1 else 2))%nat.
Proof.
  destruct (updateStatus_timeline now newStatus notes updatedBy d)
    as (d' & Hrun & _ & Htl).
  exists d'; split; [exact Hrun|].
  rewrite Htl, length_app.
  destruct (status_eqb newStatus (status d)); reflexivity.
Qed.

(** No engine operation shortens the timeline: the old entries stay as
    a prefix. *)
Lemma run_timeline_prefix now op d d' :
  run now op d = Ok d' -> exists added, timeline d' = timeline d ++ added.
Proof.
  destruct op; simpl.
  - intros [= <-].
    destruct (updateStatus_timeline now newStatus notes updatedBy d)
      as (d' & Hrun & _ & Htl).
    injection Hrun as <-. eexists; exact Htl.
  - intros [= <-]. rewrite save_timeline. eexists; reflexivity.
  - unfold completeVisit.
    destruct (find (has_id visitId) (visits d)) as [visit|]; [|discriminate].
    intros [= <-]. rewrite save_timeline.
    destruct (v_type visit), outcome; simpl; eexists; reflexivity.
  - intros [= <-]. rewrite save_timeline. eexists; reflexivity.
  - unfold processPayment. intros [= <-]. rewrite save_timeline.
    destruct (_ && _); simpl; eexists; reflexivity.
Qed.

(** *** Payments *)

(** A payment of -30 is accepted: the call resolves and the amount paid
    drops from 50 to 20. *)
Lemma negative_payment_is_accepted :
  exists d',
    processPayment 100 (-30) "card" "txn1" Samples.approved_app = Ok d' /\
    f_paid (fees d') = 20 /\
    d' <> Samples.approved_app.
Proof.
  eexists; split; [reflexivity|]. split; [reflexivity|].
  vm_compute; discriminate.
Qed.

(** C4, counterexample, on the application at [adoption-approved] with
    50 of 200 paid.  A payment of -80 is accepted and changes the
    application, leaving -30 paid.  A payment of 10 after it, a positive
    amount, leaves -20 paid of 200 and the payment status [partial],
    where the rule of the specification gives [pending].  And paying the
    outstanding 150 instead completes the adoption while the pet, in its
    own collection, stays [available]. *)
Lemma payments_depart_from_specification :
  (exists d1 d2,
     processPayment 100 (-80) "card" "txn1" Samples.approved_app = Ok d1 /\
     f_paid (fees d1) = -30 /\
     d1 <> Samples.approved_app /\
     processPayment 110 10 "card" "txn2" d1 = Ok d2 /\
     f_paid (fees d2) = -20 /\
     f_total (fees d2) = 200 /\
     f_paymentStatus (fees d2) = Partial /\
     SpecGraph.spec_payment_status (f_paid (fees d2)) (f_total (fees d2))
       = Pending) /\
  (exists d',
     Payments.processPayment 100 150 "card" "txn1"
       (Payments.mkStores Samples.approved_app Samples.pet1)
     = Ok (Payments.mkStores d' Samples.pet1) /\
     status d' = AdoptionCompleted /\
     f_paymentStatus (fees d') = Paid /\
     AdoptionRoutes.pet_status Samples.pet1 = AdoptionRoutes.Available).
Proof.
  split.
  - do 2 eexists. split; [reflexivity|]. split; [reflexivity|].
    split; [vm_compute; discriminate|]. repeat split; reflexivity.
  - eexists. repeat split; reflexivity.
Qed.

(** C4, as amended.  [processPayment] validates nothing and resolves for
    every application and every amount, positive or not.  It adds the
    amount to [fees.paid]; the hook sets [fees.total] to the adoption fee
    plus the additional fees.  The payment status it stores is [paid]
    when the new paid amount reaches that total and [partial] otherwise,
    also when nothing or less than nothing is paid, [pending] never; the
    one exception, a paid amount that is not positive but reaches the
    total stored before the call, gives [paid].  The status becomes
    [adoption-completed] exactly when the new paid amount reaches the
    total stored before the call and the status was [adoption-approved].
    The pet is not written. *)
Theorem processPayment_effect :
  forall now amount method transactionId s,
    let d := Payments.st_application s in
    let paid := f_paid (fees d) + amount in
    let total := f_adoption (fees d) + sum_amounts (f_additional (fees d)) in
    exists d',
      Payments.processPayment now amount method transactionId s
        = Ok (Payments.mkStores d' (Payments.st_pet s)) /\
      f_paid (fees d') = paid /\
      f_total (fees d') = total /\
      f_paymentStatus (fees d') =
        (if (total <=? paid) || ((paid <=? 0) && (f_total (fees d) <=? paid))
         then Paid else Partial) /\
      status d' =
        (if (f_total (fees d) <=? paid) && status_eqb (status d) AdoptionApproved
         then AdoptionCompleted else status d).
Proof.
  intros now amount method transactionId s d paid total.
  unfold Payments.processPayment, processPayment, bind. fold d.
  eexists; split; [reflexivity|].
  fold paid. set (settled := f_total (fees d) <=? paid).
  set (f' := mkFees (f_adoption (fees d)) (f_additional (fees d))
               (f_total (fees d)) paid (if settled then Paid else Partial)
               (Some method) (Some transactionId)).
  assert (Hfees :
    fees (save now
      (if settled && status_eqb (status d) AdoptionApproved
       then assign_status AdoptionCompleted (edit (with_fees f') (load d))
       else edit (with_fees f') (load d))) = pre_save_fees f').
  { rewrite save_fees. destruct (settled && _); reflexivity. }
  rewrite Hfees, save_status. unfold pre_save_fees, f'. simpl.
  rewrite reduce_amounts_sum. fold total.
  repeat split.
  - destruct (total <=? paid) eqn:E1; [reflexivity|]. simpl.
    destruct (0 <? paid) eqn:E2.
    + apply Z.ltb_lt in E2.
      assert (H : (paid <=? 0) = false) by (apply Z.leb_gt; lia).
      now rewrite H.
    + apply Z.ltb_ge in E2.
      assert (H : (paid <=? 0) = true) by (apply Z.leb_le; lia).
      rewrite H. simpl. reflexivity.
  - destruct (settled && status_eqb (status d) AdoptionApproved); reflexivity.
Qed.

(** Scenario D of the specification, evaluated: paying the outstanding
    150 settles the fees and completes the adoption. *)
Example scenario_payment_completes :
  exists d',
    processPayment 100 150 "card" "txn1" Samples.approved_app = Ok d' /\
    f_paymentStatus (fees d') = Paid /\
    status d' = AdoptionCompleted.
Proof. eexists; repeat split; reflexivity. Qed.

(** *** Fee totals *)


(** *** Visits *)

Lemma complete_keeps_id now outcome notes visitId v :
  has_id visitId v = true -> has_id visitId (complete now outcome notes v) = true.
Proof. intros H; exact H. Qed.

(** C8, counterexample.  Completing the meet-and-greet with outcome
    [rejected] leaves the application at [meet-scheduled] and adds no
    timeline entry. *)
Lemma rejected_visit_leaves_status :
  exists d',
    completeVisit 100 11 ORejected (Some "not a match") Samples.meet_app = Ok d' /\
    status d' = MeetScheduled /\
    status d' <> Rejected /\
    timeline d' = timeline Samples.meet_app.
Proof.
  eexists; split; [reflexivity|].
  repeat split; [vm_compute; discriminate].
Qed.

(** C8, as amended.  With no visit of that id the call fails with
    'Visit not found'.  Otherwise it resolves, the visit is stored as
    completed with the given outcome and notes, and the status becomes
    [meet-completed] for an approved meet-and-greet,
    [home-visit-completed] for an approved home visit; in every other
    case, a rejected outcome included, status and timeline stay as they
    were. *)
Theorem completeVisit_effect :
  forall now visitId outcome notes d,
    match find (has_id visitId) (visits d) with
    | None => completeVisit now visitId outcome notes d = Err "Visit not found"
    | Some visit =>
        exists d',
          completeVisit now visitId outcome notes d = Ok d' /\
          visits d' =
            update_first (has_id visitId) (complete now outcome notes) (visits d) /\
          find (has_id visitId) (visits d') =
            Some (mkVisit (v_id visit) (v_type visit) (v_scheduledDate visit)
                          VCompleted notes (Some outcome) (Some now)) /\
          match outcome, v_type visit with
          | OApproved, MeetAndGreet => status d' = MeetCompleted
          | OApproved, HomeVisit => status d' = HomeVisitCompleted
          | _, _ => status d' = status d /\ timeline d' = timeline d
          end
    end.
Proof.
  intros now visitId outcome notes d.
  unfold completeVisit.
  destruct (find (has_id visitId) (visits d)) as [visit|] eqn:Hfind;
    [|reflexivity].
  assert (Hv : forall w : Working,
    visits (doc (match v_type visit, outcome with
                 | MeetAndGreet, OApproved => assign_status MeetCompleted w
                 | HomeVisit, OApproved => assign_status HomeVisitCompleted w
                 | _, _ => w
                 end)) = visits (doc w))
    by (intros w; destruct (v_type visit), outcome; reflexivity).
  eexists; split; [reflexivity|].
  rewrite save_visits, Hv. simpl visits.
  split; [reflexivity|]. split.
  - apply (find_update_first (has_id visitId) (complete now outcome notes));
      [intros y Hy; exact Hy | exact Hfind].
  - rewrite save_status, save_timeline.
    destruct outcome, (v_type visit); simpl;
      try reflexivity; now rewrite app_nil_r.
Qed.

(** The entry an approved visit leaves in the timeline comes from the
    pre-save hook alone: one entry, without notes or actor. *)
Example approved_visit_logs_bare_entry :
  exists d',
    completeVisit 100 11 OApproved (Some "went well") Samples.meet_app = Ok d' /\
    status d' = MeetCompleted /\
    timeline d' =
      timeline Samples.meet_app ++ [mkEntry MeetCompleted 100 None None].
Proof. eexists; repeat split; reflexivity. Qed.

(** *** Who asks *)


End AdoptionFacts.

(** ** Activity registration: the model methods *)

Module ActivityFacts.
Import Activity.

Lemma save_storable a :
  storable a ->
  exists a',
    save a = Ok a' /\
    capacity a' = capacity a /\
    participants a' = participants a /\
    date_start a' = date_start a /\
    date_end a' = date_end a.
Proof.
  intros (Hmax & [Hc0 Hc] & Hw & Hd).
  unfold save, validate, pre_save, bind.
  destruct (c_max (capacity a) <? 1) eqn:E1; [apply Z.ltb_lt in E1; lia|].
  destruct (c_current (capacity a) <? 0) eqn:E2; [apply Z.ltb_lt in E2; lia|].
  destruct (c_waitlist (capacity a) <? 0) eqn:E3; [apply Z.ltb_lt in E3; lia|].
  destruct (date_end a <=? date_start a) eqn:E4; [apply Z.leb_le in E4; lia|].
  destruct (c_max (capacity a) <? c_current (capacity a)) eqn:E5;
    [apply Z.ltb_lt in E5; lia|].
  destruct (registration_required a), (registration_deadline a);
    eexists; repeat split; reflexivity.
Qed.

(** What [save] returns satisfies the hook's capacity check, whatever
    the document was. *)
Lemma save_bounds_current a a' :
  save a = Ok a' -> c_current (capacity a') <= c_max (capacity a').
Proof.
  unfold save, validate, pre_save, bind.
  destruct (c_max (capacity a) <? 1); [discriminate|].
  destruct (c_current (capacity a) <? 0); [discriminate|].
  destruct (c_waitlist (capacity a) <? 0); [discriminate|].
  destruct (date_end a <=? date_start a); [discriminate|].
  destruct (c_max (capacity a) <? c_current (capacity a)) eqn:E; [discriminate|].
  apply Z.ltb_ge in E.
  destruct (registration_required a), (registration_deadline a);
    intros [= <-]; exact E.
Qed.

(** The default call of [addParticipant] on a stored activity: a free
    seat is taken, otherwise the user joins the waiting list. *)
Lemma addParticipant_registers_or_waitlists now userId a :
  storable a ->
  exists a',
    addParticipant now userId Registered a = Ok a' /\
    storable a' /\
    if c_current (capacity a) <? c_max (capacity a)
    then
      participants a' = participants a ++ [mkParticipant userId now Registered] /\
      capacity a' = set_current (c_current (capacity a) + 1) (capacity a)
    else
      participants a' = participants a ++ [mkParticipant userId now Waitlisted] /\
      capacity a' = set_waitlist (c_waitlist (capacity a) + 1) (capacity a).
Proof.
  intros Hs. pose proof Hs as (Hmax & [Hc0 Hc] & Hw & Hd).
  unfold addParticipant.
  rewrite Z.leb_antisym.
  destruct (c_current (capacity a) <? c_max (capacity a)) eqn:E; simpl.
  - apply Z.ltb_lt in E.
    destruct (save_storable
      (with_participants
         (participants a ++ [mkParticipant userId now Registered])
         (with_capacity (set_current (c_current (capacity a) + 1) (capacity a)) a)))
      as (a' & Hsave & Hcap & Hps & Hst & Hen).
    { unfold storable; simpl; lia. }
    exists a'. split; [exact Hsave|]. split; [|now split].
    unfold storable. rewrite Hcap, Hst, Hen. simpl. lia.
  - apply Z.ltb_ge in E.
    destruct (save_storable
      (with_participants
         (participants a ++ [mkParticipant userId now Waitlisted])
         (with_capacity (set_waitlist (c_waitlist (capacity a) + 1) (capacity a)) a)))
      as (a' & Hsave & Hcap & Hps & Hst & Hen).
    { unfold storable; simpl; lia. }
    exists a'. split; [exact Hsave|]. split; [|now split].
    unfold storable. rewrite Hcap, Hst, Hen. simpl. lia.
Qed.

(** Scenario C of the specification on the model methods: with one
    seat, the first user is registered, the second waits, and when the
    first leaves the second is promoted; the first keeps a registered
    entry, in the document returned and in the store. *)
Example scenario_waitlist_promotion :
  exists a1 a2 s3,
    addParticipant 10 1 Registered (fresh 1000 2000 1) = Ok a1 /\
    addParticipant 20 2 Registered a1 = Ok a2 /\
    removeParticipant 1 a2 = Some (Ok s3) /\
    participants a2 =
      [mkParticipant 1 10 Registered; mkParticipant 2 20 Waitlisted] /\
    capacity a2 = mkCapacity 1 1 1 /\
    participants (stored s3) =
      [mkParticipant 1 10 Registered; mkParticipant 2 20 Registered] /\
    capacity (stored s3) = mkCapacity 1 1 0 /\
    resolved s3 = stored s3.
Proof. do 3 eexists. repeat split; reflexivity. Qed.

(** *** Counting participants *)

Lemma count_status_app s l1 l2 :
  count_status s (l1 ++ l2) = (count_status s l1 + count_status s l2)%nat.
Proof. unfold count_status. now rewrite filter_app, length_app. Qed.

Lemma count_status_cons s p l :
  count_status s (p :: l) =
  ((if pstatus_eqb (p_status p) s then 1 else 0) + count_status s l)%nat.
Proof.
  unfold count_status; simpl.
  destruct (pstatus_eqb (p_status p) s); reflexivity.
Qed.

Lemma pull_user_absent u l :
  ~ In u (map p_user l) -> pull_user u l = l.
Proof.
  induction l as [|x r IH]; simpl; [reflexivity|].
  intros H. unfold has_user.
  destruct (Nat.eqb (p_user x) u) eqn:E.
  - apply Nat.eqb_eq in E. exfalso; apply H; now left.
  - simpl. f_equal. apply IH. intros Hin; apply H; now right.
Qed.

Lemma pull_user_users u l :
  NoDup (map p_user l) -> NoDup (map p_user (pull_user u l)).
Proof.
  induction l as [|x r IH]; simpl; [auto|].
  intros H. inversion H as [|? ? Hx Hr]; subst.
  destruct (negb (has_user u x)); [|now apply IH].
  simpl. constructor; [|now apply IH].
  intros Hin. apply Hx.
  apply in_map_iff in Hin as (q & Hq & Hin).
  apply in_map_iff. exists q. split; [exact Hq|].
  unfold pull_user in Hin. now apply filter_In in Hin.
Qed.


(** With one entry per user, pulling a user removes exactly the entry
    [find] returns. *)
Lemma count_status_pull s u l p :
  NoDup (map p_user l) ->
  find (has_user u) l = Some p ->
  count_status s l =
  ((if pstatus_eqb (p_status p) s then 1 else 0) +
   count_status s (pull_user u l))%nat.
Proof.
  induction l as [|x r IH]; simpl; [discriminate|].
  intros H Hfind. inversion H as [|? ? Hx Hr]; subst.
  destruct (has_user u x) eqn:E; simpl.
  - injection Hfind as <-.
    unfold has_user in E. apply Nat.eqb_eq in E. subst u.
    rewrite (pull_user_absent _ _ Hx). apply count_status_cons.
  - rewrite !count_status_cons, (IH Hr Hfind). lia.
Qed.

Lemma promote_users l :
  map p_user (update_first waitlisted promote l) = map p_user l.
Proof.
  induction l as [|x r IH]; simpl; [reflexivity|].
  destruct (waitlisted x); simpl; [reflexivity | now rewrite IH].
Qed.

Lemma pstatus_eqb_waitlisted st :
  pstatus_eqb st Waitlisted = is_waitlisted st.
Proof. destruct st; reflexivity. Qed.

Lemma count_status_promote l w :
  find waitlisted l = Some w ->
  count_status Registered (update_first waitlisted promote l) =
    S (count_status Registered l) /\
  S (count_status Waitlisted (update_first waitlisted promote l)) =
    count_status Waitlisted l.
Proof.
  induction l as [|x r IH]; simpl; [discriminate|].
  unfold waitlisted at 1 3 5.
  destruct (p_status x) eqn:E; simpl; intros Hfind;
    rewrite ?count_status_cons; simpl; rewrite ?E; simpl;
    try (destruct (IH Hfind) as [-> <-]; split; reflexivity).
  split; reflexivity.
Qed.

Lemma count_waitlisted_none l :
  find waitlisted l = None -> count_status Waitlisted l = 0%nat.
Proof.
  induction l as [|x r IH]; simpl; [reflexivity|].
  unfold waitlisted at 1. rewrite count_status_cons, pstatus_eqb_waitlisted.
  destruct (is_waitlisted (p_status x)); [discriminate | exact IH].
Qed.

Lemma find_user_after_promote u l p :
  find (has_user u) l = Some p ->
  waitlisted p = false ->
  find (has_user u) (update_first waitlisted promote l) = Some p.
Proof.
  induction l as [|x r IH]; simpl; [discriminate|].
  intros Hfind Hp.
  destruct (waitlisted x) eqn:Ew; simpl.
  - change (has_user u (promote x)) with (has_user u x).
    destruct (has_user u x); [|exact Hfind].
    injection Hfind as <-. congruence.
  - destruct (has_user u x); [exact Hfind | now apply IH].
Qed.



(** *** [removeParticipant] *)

Lemma removeParticipant_absent u a :
  find (has_user u) (participants a) = None -> removeParticipant u a = None.
Proof. unfold removeParticipant. now intros ->. Qed.


(** A registered participant leaves and nobody waits: one seat is
    freed.  The document returned keeps the entries; in the store those
    of the user are gone. *)
Lemma removeParticipant_registered_alone u a p :
  storable a ->
  find (has_user u) (participants a) = Some p ->
  p_status p = Registered ->
  find waitlisted (participants a) = None ->
  1 <= c_current (capacity a) ->
  exists s,
    removeParticipant u a = Some (Ok s) /\
    participants (stored s) = pull_user u (participants a) /\
    participants (resolved s) = participants a /\
    capacity (resolved s) = capacity (stored s) /\
    c_current (capacity (stored s)) = c_current (capacity a) - 1 /\
    c_waitlist (capacity (stored s)) = c_waitlist (capacity a).
Proof.
  intros (Hmax & [Hc0 Hc] & Hw & Hd) Hfind Hreg Hwait Hc1.
  unfold removeParticipant. rewrite Hfind, Hreg. simpl. rewrite Hwait.
  match goal with |- context [save ?x] =>
    destruct (save_storable x) as (a' & Hsave & Hcap & Hps & _) end.
  { unfold storable; simpl; lia. }
  eexists. rewrite Hsave. simpl. split; [reflexivity|]. simpl.
  rewrite Hcap, Hps. now repeat split.
Qed.

(** A waitlisted participant leaves: only the waiting list shrinks and
    nobody is promoted. *)
Lemma removeParticipant_waitlisted u a p :
  storable a ->
  find (has_user u) (participants a) = Some p ->
  p_status p = Waitlisted ->
  1 <= c_waitlist (capacity a) ->
  exists s,
    removeParticipant u a = Some (Ok s) /\
    participants (stored s) = pull_user u (participants a) /\
    participants (resolved s) = participants a /\
    capacity (resolved s) = capacity (stored s) /\
    c_current (capacity (stored s)) = c_current (capacity a) /\
    c_waitlist (capacity (stored s)) = c_waitlist (capacity a) - 1.
Proof.
  intros (Hmax & [Hc0 Hc] & Hw & Hd) Hfind Hwl Hw1.
  unfold removeParticipant. rewrite Hfind, Hwl.
  match goal with |- context [save ?x] =>
    destruct (save_storable x) as (a' & Hsave & Hcap & Hps & _) end.
  { unfold storable; simpl; lia. }
  eexists. rewrite Hsave. simpl. split; [reflexivity|]. simpl.
  rewrite Hcap, Hps. now repeat split.
Qed.

(** *** The counters as an invariant *)

Lemma fresh_counters_ok start finish max :
  1 <= max -> start < finish ->
  storable (fresh start finish max) /\
  counters_ok (fresh start finish max) /\
  one_entry_per_user (fresh start finish max).
Proof.
  intros Hmax Hd. unfold storable, counters_ok, one_entry_per_user; simpl.
  repeat split; try lia. constructor.
Qed.

(** Registering a user who has no entry keeps the counters right. *)
Lemma addParticipant_keeps_counters now u a :
  storable a -> counters_ok a -> one_entry_per_user a ->
  ~ In u (map p_user (participants a)) ->
  exists a',
    addParticipant now u Registered a = Ok a' /\
    storable a' /\ counters_ok a' /\ one_entry_per_user a'.
Proof.
  intros Hs (Hle & Hcur & Hwl) Hnd Hnew.
  destruct (addParticipant_registers_or_waitlists now u a Hs)
    as (a' & Hrun & Hs' & Heff).
  exists a'. split; [exact Hrun|]. split; [exact Hs'|].
  assert (Hsplit :
    map p_user (participants a ++ [mkParticipant u now Registered]) =
    map p_user (participants a) ++ [u]) by now rewrite map_app.
  assert (Hnd' : NoDup (map p_user (participants a) ++ [u])).
  { apply NoDup_app; [exact Hnd | repeat constructor; intros [] |].
    intros x Hx [<-|[]]. contradiction. }
  destruct (c_current (capacity a) <? c_max (capacity a)) eqn:E;
    destruct Heff as [Hps Hcap]; unfold counters_ok, one_entry_per_user;
    rewrite Hps, Hcap, !count_status_app, map_app; simpl;
    [apply Z.ltb_lt in E | apply Z.ltb_ge in E];
    (split; [|exact Hnd']); unfold count_status in *; simpl; lia.
Qed.

(** Closes a goal about the document stored by a withdrawal that
    promotes nobody, once the counters of the saved document are
    known. *)
Ltac stored_after :=
  match goal with
  | |- context [save ?x] =>
      let a' := fresh "a'" in
      let Hsave := fresh "Hsave" in
      let Hcap := fresh "Hcap" in
      let Hps := fresh "Hps" in
      let Hds := fresh "Hds" in
      let Hde := fresh "Hde" in
      destruct (save_storable x) as (a' & Hsave & Hcap & Hps & Hds & Hde);
      [ unfold storable; simpl; lia
      | eexists; rewrite Hsave; simpl; split; [reflexivity|];
        unfold storable, counters_ok, one_entry_per_user; simpl;
        rewrite Hcap, Hps, Hds, Hde; simpl;
        repeat split; try lia; now apply pull_user_users ]
  end.

(** A withdrawal that promotes nobody keeps them right in the store as
    long as no user has two entries. *)
Lemma removeParticipant_keeps_counters u a :
  storable a -> counters_ok a -> one_entry_per_user a ->
  promotes u a = false ->
  removeParticipant u a = None \/
  exists s,
    removeParticipant u a = Some (Ok s) /\
    storable (stored s) /\ counters_ok (stored s) /\
    one_entry_per_user (stored s).
Proof.
  intros Hs (Hle & Hcur & Hwl) Hnd Hquiet.
  pose proof Hs as (Hmax & [Hc0 Hc] & Hw & Hd).
  unfold promotes in Hquiet.
  destruct (find (has_user u) (participants a)) as [p|] eqn:Hfind;
    [right | left; now apply removeParticipant_absent].
  pose proof (count_status_pull Registered u _ p Hnd Hfind) as HcR.
  pose proof (count_status_pull Waitlisted u _ p Hnd Hfind) as HcW.
  unfold removeParticipant. rewrite Hfind.
  destruct (p_status p) eqn:Hst; simpl in HcR, HcW, Hquiet; try stored_after.
  simpl. destruct (find waitlisted (participants a)) as [w|] eqn:Hwait;
    [discriminate | stored_after].
Qed.

(** A withdrawal that promotes somebody does not: the entry of the
    leaving user stays in the array that is stored, registered, beside
    the promoted one, so the stored document counts one registered
    participant more than its seat counter. *)
Lemma removeParticipant_promotion_keeps_leaver u a p w :
  storable a -> counters_ok a ->
  find (has_user u) (participants a) = Some p ->
  p_status p = Registered ->
  find waitlisted (participants a) = Some w ->
  exists s,
    removeParticipant u a = Some (Ok s) /\
    resolved s = stored s /\
    map p_user (participants (stored s)) = map p_user (participants a) /\
    find (has_user u) (participants (stored s)) = Some p /\
    c_current (capacity (stored s)) = c_current (capacity a) /\
    Z.of_nat (count_status Registered (participants (stored s))) =
      c_current (capacity (stored s)) + 1 /\
    ~ counters_ok (stored s).
Proof.
  intros (Hmax & [Hc0 Hc] & Hw & Hd) (Hle & Hcur & Hwl) Hfind Hreg Hwait.
  destruct (count_status_promote _ _ Hwait) as [HpR HpW].
  assert (Hp : waitlisted p = false) by (unfold waitlisted; now rewrite Hreg).
  pose proof (find_user_after_promote u _ p Hfind Hp) as Hfind'.
  unfold removeParticipant. rewrite Hfind, Hreg. simpl. rewrite Hwait.
  match goal with |- context [save ?x] =>
    destruct (save_storable x) as (a' & Hsave & Hcap & Hps & _) end.
  { unfold storable; simpl; lia. }
  exists (mkSaved a' a'). rewrite Hsave. simpl.
  unfold counters_ok. rewrite Hcap, Hps. simpl.
  split; [reflexivity|]. split; [reflexivity|].
  split; [apply promote_users|]. split; [exact Hfind'|].
  split; [lia|]. split; [lia|].
  intros (_ & H & _). lia.
Qed.

(** Starting from a new activity and serving admissible requests only,
    the stored activity always has its counters right. *)
Lemma served_counters_ok start finish max a :
  1 <= max -> start < finish ->
  served (fresh start finish max) a ->
  storable a /\ counters_ok a /\ one_entry_per_user a.
Proof.
  intros Hmax Hd Hserved.
  induction Hserved as [|a r _ (Hs & Hc & Hu) Hadm].
  - now apply fresh_counters_ok.
  - destruct r as [now u|u]; simpl in *.
    + destruct (addParticipant_keeps_counters now u a Hs Hc Hu Hadm)
        as (a' & -> & H). exact H.
    + destruct (removeParticipant_keeps_counters u a Hs Hc Hu Hadm)
        as [-> | (s & -> & H)]; [exact (conj Hs (conj Hc Hu)) | exact H].
Qed.

(** A participant added with an explicit 'waitlisted' status is pushed
    without the waiting-list counter moving. *)
Lemma explicit_waitlisted_not_counted :
  exists a1,
    addParticipant 10 7 Waitlisted Samples.open_activity = Ok a1 /\
    c_waitlist (capacity a1) = 0 /\
    st_waitlisted (getParticipantStats a1) = 1%nat.
Proof. eexists; repeat split; reflexivity. Qed.

(** C9, at the failing input.  On a new activity with two seats the
    same user is added twice and then removed once: in the store both
    entries leave the array while the seat counter drops by one only, so
    the counter reads 1 with no registered participant left; the
    document the call returns reads 1 as well, with both entries still
    in it. *)
Theorem duplicate_registration_breaks_counters :
  exists a1 a2 s3,
    addParticipant 10 7 Registered Samples.open_activity = Ok a1 /\
    addParticipant 20 7 Registered a1 = Ok a2 /\
    removeParticipant 7 a2 = Some (Ok s3) /\
    counters_ok a2 /\
    participants (stored s3) = [] /\
    c_current (capacity (stored s3)) = 1 /\
    st_registered (getParticipantStats (stored s3)) = 0%nat /\
    ~ counters_ok (stored s3) /\
    c_current (capacity (resolved s3)) = 1 /\
    st_registered (getParticipantStats (resolved s3)) = 2%nat /\
    ~ counters_ok (resolved s3).
Proof.
  do 3 eexists.
  split; [reflexivity|]. split; [reflexivity|]. split; [reflexivity|].
  split; [unfold counters_ok; simpl; lia|].
  split; [reflexivity|]. split; [reflexivity|]. split; [reflexivity|].
  split; [unfold counters_ok; simpl; intros (_ & H & _); discriminate H|].
  split; [reflexivity|]. split; [reflexivity|].
  unfold counters_ok; simpl. intros (_ & H & _). discriminate H.
Qed.

End ActivityFacts.

(** ** The handlers *)

Module RouteFacts.

(** *** POST /api/adoptions *)

Section Submission.
Import Adoption AdoptionRoutes.

(** The duplicate lookup selects no stored application, whatever its
    pet, applicant and status. *)
Lemma existing_request_never petId user d :
  existing_request petId user d = false.
Proof. reflexivity. Qed.

(** Had the filter named the paths of the schema, [application.pet] and
    [application.applicant], its status list would still miss seven of
    the eight active statuses: of the statuses the schema allows only
    [approved] is listed, 'pending' being none of them. *)
Lemma duplicate_statuses_only_approved (st : Status) :
  existsb (String.eqb (status_name st)) duplicate_statuses = true <->
  st = Approved.
Proof.
  split.
  - destruct st; simpl; intros H; try discriminate; reflexivity.
  - intros ->. reflexivity.
Qed.

(** C3, at the failing input.  Applicant 7 already has a [submitted],
    hence active, application for the available pet 1 and submits again:
    the lookup finds nothing and the handler goes on to [Adoption.create];
    when that resolves, the store holds two applications of the pair. *)
Theorem second_submission_reaches_create :
  forall create : NewRequest -> result Doc,
    isActive Samples.submitted_app = true /\
    pet Samples.submitted_app = 1%nat /\
    applicant Samples.submitted_app = 7%nat /\
    find (existing_request 1 7) [Samples.submitted_app] = None /\
    postAdoption create 7 1 [Samples.pet1] [Samples.submitted_app] =
      match create (mkNewRequest 1 7 3) with
      | Ok adoption =>
          (Json 201 "Adoption request submitted successfully",
           [Samples.submitted_app; adoption])
      | Err msg => (Failed msg, [Samples.submitted_app])
      end.
Proof.
  intros create. repeat split.
Qed.

(** The duplicate reply is never sent: for an available pet the handler
    always goes on to [Adoption.create], whatever the store holds. *)
Lemma submission_always_reaches_create create user petId p pets adoptions :
  find (fun q => Nat.eqb (pet_id q) petId) pets = Some p ->
  pet_status p = Available ->
  postAdoption create user petId pets adoptions =
    match create (mkNewRequest (pet_id p) user (pet_shelter p)) with
    | Ok adoption =>
        (Json 201 "Adoption request submitted successfully",
         adoptions ++ [adoption])
    | Err msg => (Failed msg, adoptions)
    end.
Proof.
  intros Hp Hav. unfold postAdoption. rewrite Hp, Hav. simpl.
  destruct (find (existing_request (pet_id p) user) adoptions) as [d|] eqn:E;
    [|reflexivity].
  apply find_some in E as [_ E]. rewrite existing_request_never in E.
  discriminate E.
Qed.

End Submission.

(** *** PUT /api/adoptions/:id/status *)

Section StatusUpdate.
Import AdoptionRoutes.

Variable savePet : Pet -> result Pet.
Variable saveAdoption : RequestView -> result RequestView.

Lemma apply_body_ignores_status body status r :
  apply_body body (with_stored_status status r) = apply_body body r.
Proof. reflexivity. Qed.

(** The handler never looks at the status the request currently has:
    whatever it is, the same document is handed to [save] and the same
    reply is sent. *)
Lemma putStatus_ignores_stored_status now body status r :
  fst (putStatus savePet saveAdoption now body
         (Some (with_stored_status status r))) =
  fst (putStatus savePet saveAdoption now body (Some r)).
Proof.
  unfold putStatus. rewrite apply_body_ignores_status.
  destruct (sb_status body); simpl;
    repeat match goal with
           | |- context [match ?x with Ok _ => _ | Err _ => _ end] => destruct x
           end; reflexivity.
Qed.

(** A request marked 'completed' stores its pet as adopted before the
    request itself is saved. *)
Lemma putStatus_completed_adopts now notes meeting reason r :
  putStatus savePet saveAdoption now
    (mkStatusBody ReqCompleted notes meeting reason) (Some r) =
  match savePet (adopt now (rq_adopter r) (rq_pet r)) with
  | Err msg => (Failed msg, Some r)
  | Ok pet =>
      match saveAdoption
              (stamp_completed now pet
                 (apply_body (mkStatusBody ReqCompleted notes meeting reason) r)) with
      | Ok saved => (Json 200 "Adoption request completed successfully", Some saved)
      | Err msg => (Failed msg, Some (with_pet pet r))
      end
  end.
Proof. reflexivity. Qed.

End StatusUpdate.

(** *** POST and DELETE /api/activities/:id/register *)

Section Registration.
Import ActivityRoutes.

Variable save : View -> result View.

(** On a document that had the paths the handler reads, a new user
    would be turned away at capacity, not put on a waiting list. *)
Lemma postRegister_full now user notes emergencyContact activity start regs :
  startDate activity = Some start -> now <= start ->
  registrations activity = Some regs ->
  find (of_user user) regs = None ->
  at_capacity activity regs = true ->
  postRegister save now user notes emergencyContact (Some activity) =
    (Json 400 "This activity is at full capacity", Some activity).
Proof.
  intros Hstart Hnow Hregs Hnew Hfull. unfold postRegister, in_the_past.
  rewrite Hstart.
  destruct (start <? now) eqn:E; [apply Z.ltb_lt in E; lia|].
  now rewrite Hregs, Hnew, Hfull.
Qed.

(** The handlers answer 200 only for a document on which [registrations]
    reads as an array. *)
Lemma register_handlers_need_registrations now user notes emergencyContact
    activity message after :
  postRegister save now user notes emergencyContact (Some activity)
    = (Json 200 message, after)
  \/ deleteRegister save now user (Some activity) = (Json 200 message, after) ->
  registrations activity <> None.
Proof.
  unfold postRegister, deleteRegister.
  destruct (in_the_past now activity);
    [intros [H|H]; discriminate|].
  destruct (registrations activity); [discriminate|].
  intros [H|H]; discriminate.
Qed.

End Registration.

Import ActivityRoutes.

(** C5.  POST /api/activities/:id/register on an activity of the model,
    whatever its counters and participants and whoever asks: the
    handler reads [activity.registrations], which no document of the
    Activity model has, and the TypeError goes to [next]; nothing is
    saved and the user is neither registered nor put on the waiting
    list. *)
Theorem register_handler_fails_on_stored_activity :
  forall (save : View -> result View) now user notes emergencyContact
         (activity : Activity.Doc),
    postRegister save now user notes emergencyContact (Some (read activity))
    = (Failed "TypeError", Some (read activity)).
Proof. intros. reflexivity. Qed.

(** C6.  DELETE /api/activities/:id/register on an activity of the
    model fails the same way at [activity.registrations.findIndex]:
    nothing is saved, no counter moves and nobody is promoted. *)
Theorem unregister_handler_fails_on_stored_activity :
  forall (save : View -> result View) now user (activity : Activity.Doc),
    deleteRegister save now user (Some (read activity))
    = (Failed "TypeError", Some (read activity)).
Proof. intros. reflexivity. Qed.

End RouteFacts.

(** ** Adoption model: virtuals, next steps, visits *)

Module AdoptionViewFacts.
Import Adoption AdoptionViews AdoptionFacts.




(** X1.  [getNextSteps] has something to propose for every active
    application and for a completed one, and nothing exactly for the
    statuses [rejected], [on-hold], [adoption-returned] and [withdrawn];
    an application is never both active and completed. *)
Theorem next_steps_follow_status :
  forall d,
    (getNextSteps d = [] <->
     In (status d) [Rejected; OnHold; AdoptionReturned; Withdrawn]) /\
    (getNextSteps d = [] <-> isActive d = false /\ isCompleted d = false) /\
    (isActive d = true -> isCompleted d = false).
Proof.
  intros [a p s st vs tl f ns]. unfold getNextSteps, isActive, isCompleted.
  simpl status.
  destruct st; simpl; repeat split; intros; try discriminate; try reflexivity;
    try tauto;
    repeat match goal with
           | H : _ /\ _ |- _ => destruct H
           | H : _ \/ _ |- _ => destruct H
           end; try discriminate; try contradiction.
Qed.


Lemma find_app_fresh {A : Type} (p : A -> bool) (l : list A) (x : A) :
  find p l = None -> p x = true -> find p (l ++ [x]) = Some x.
Proof.
  induction l as [|y r IH]; simpl; intros Hnone Hx.
  - now rewrite Hx.
  - destruct (p y); [discriminate | now apply IH].
Qed.

Lemma update_first_app_fresh {A : Type} (p : A -> bool) (f : A -> A)
    (l : list A) (x : A) :
  find p l = None -> p x = true -> update_first p f (l ++ [x]) = l ++ [f x].
Proof.
  induction l as [|y r IH]; simpl; intros Hnone Hx.
  - now rewrite Hx.
  - destruct (p y); [discriminate | now rewrite IH].
Qed.

(** X3.  Scheduling a visit under an id the application does not use
    yet changes neither status nor timeline, and completing that id
    afterwards succeeds and turns exactly the new visit, the last of the
    array, into a completed one carrying the outcome, the notes and the
    completion time. *)
Theorem schedule_then_complete :
  forall now1 now2 visitData outcome notes d,
    find (has_id (vd_id visitData)) (visits d) = None ->
    exists d1 d2,
      scheduleVisit now1 visitData d = Ok d1 /\
      status d1 = status d /\
      timeline d1 = timeline d /\
      completeVisit now2 (vd_id visitData) outcome notes d1 = Ok d2 /\
      visits d2 =
        visits d ++
        [mkVisit (vd_id visitData) (vd_type visitData)
           (vd_scheduledDate visitData) VCompleted notes (Some outcome)
           (Some now2)].
Proof.
  intros now1 now2 vd outcome notes d Hfresh.
  set (visit := mkVisit (vd_id vd) (vd_type vd) (vd_scheduledDate vd)
                  VScheduled (vd_notes vd) (vd_outcome vd) (vd_completedAt vd)).
  assert (Hid : has_id (vd_id vd) visit = true)
    by (unfold has_id; simpl; apply Nat.eqb_refl).
  eexists. eexists. split; [reflexivity|].
  rewrite save_status, save_timeline, app_nil_r.
  split; [reflexivity|]. split; [reflexivity|].
  unfold completeVisit. rewrite save_visits. simpl visits.
  fold visit. rewrite (find_app_fresh _ _ _ Hfresh Hid).
  split; [reflexivity|].
  rewrite save_visits.
  assert (Hv : forall w : Working,
    visits (doc (match v_type visit, outcome with
                 | MeetAndGreet, OApproved => assign_status MeetCompleted w
                 | HomeVisit, OApproved => assign_status HomeVisitCompleted w
                 | _, _ => w
                 end)) = visits (doc w))
    by (intros w; destruct (v_type visit), outcome; reflexivity).
  rewrite Hv. simpl visits.
  now rewrite (update_first_app_fresh _ _ _ _ Hfresh Hid).
Qed.

Lemma schedule_then_complete_witness :
  exists d1 d2,
    scheduleVisit 50 (mkVisitData 12 HomeVisit 900 None None None)
      Samples.meet_app = Ok d1 /\
    status d1 = status Samples.meet_app /\
    timeline d1 = timeline Samples.meet_app /\
    completeVisit 950 12 OApproved (Some "fine") d1 = Ok d2 /\
    visits d2 =
      visits Samples.meet_app ++
      [mkVisit 12 HomeVisit 900 VCompleted (Some "fine") (Some OApproved)
         (Some 950)].
Proof.
  apply (schedule_then_complete 50 950
           (mkVisitData 12 HomeVisit 900 None None None) OApproved
           (Some "fine") Samples.meet_app).
  reflexivity.
Defined.


End AdoptionViewFacts.

(** ** Activity model: saving, virtuals, statistics *)

Module ActivityViewFacts.
Import Activity ActivityViews ActivityInvariant ActivityFacts.

(** What a successful [save] returns. *)
Lemma save_ok_keeps a a' :
  save a = Ok a' ->
  capacity a' = capacity a /\
  participants a' = participants a /\
  date_start a' = date_start a /\
  date_end a' = date_end a /\
  registration_required a' = registration_required a /\
  registration_deadline a' =
    match registration_deadline a with
    | Some deadline => Some deadline
    | None =>
        if registration_required a
        then Some (date_start a - 24 * 60 * 60 * 1000)
        else None
    end /\
  storable a.
Proof.
  unfold save, validate, pre_save, bind, storable.
  destruct (c_max (capacity a) <? 1) eqn:E1; [discriminate|].
  destruct (c_current (capacity a) <? 0) eqn:E2; [discriminate|].
  destruct (c_waitlist (capacity a) <? 0) eqn:E3; [discriminate|].
  destruct (date_end a <=? date_start a) eqn:E4; [discriminate|].
  destruct (c_max (capacity a) <? c_current (capacity a)) eqn:E5; [discriminate|].
  apply Z.ltb_ge in E1. apply Z.ltb_ge in E2. apply Z.ltb_ge in E3.
  apply Z.ltb_ge in E5. apply Z.leb_gt in E4.
  destruct (registration_required a) eqn:Er;
    destruct (registration_deadline a) eqn:Ed;
    intros [= <-]; simpl; rewrite ?Er, ?Ed; repeat split; lia.
Qed.



(** X6.  An activity has no spot available exactly when it is fully
    booked, and a fully booked activity is never open for registration.
    While [registrationOpen] holds, registration is required, the
    activity is published, neither its start nor its deadline has passed
    and at least one seat is free. *)
Theorem registration_open_means_room :
  forall now status a,
    (spotsAvailable a = 0 <-> isFullyBooked a = true) /\
    (isFullyBooked a = true -> registrationOpen now status a = false) /\
    (registrationOpen now status a = true ->
     registration_required a = true /\
     status = Published /\
     now <= date_start a /\
     (forall deadline, registration_deadline a = Some deadline -> now <= deadline) /\
     isFullyBooked a = false /\
     1 <= spotsAvailable a).
Proof.
  intros now status a. split; [|split].
  - unfold spotsAvailable, isFullyBooked. rewrite Z.leb_le. lia.
  - intros Hfull. unfold registrationOpen. rewrite Hfull.
    apply andb_false_r.
  - intros H. unfold registrationOpen in H.
    apply andb_true_iff in H as [H Hfull].
    apply andb_true_iff in H as [H Hpub].
    apply andb_true_iff in H as [H Hstart].
    apply andb_true_iff in H as [Hreq Hdl].
    apply negb_true_iff in Hfull, Hstart, Hdl.
    unfold isFullyBooked, spotsAvailable in *.
    apply Z.leb_gt in Hfull. apply Z.ltb_ge in Hstart.
    split; [exact Hreq|].
    split; [destruct status; try discriminate; reflexivity|].
    split; [exact Hstart|].
    split.
    { intros deadline Hd. rewrite Hd in Hdl. now apply Z.ltb_ge in Hdl. }
    split; [apply Z.leb_gt; lia | lia].
Qed.

Lemma registration_open_means_room_witness :
  registrationOpen 100 Published Samples.open_activity = true /\
  1 <= spotsAvailable Samples.open_activity.
Proof.
  split; [reflexivity|].
  apply (proj2 (proj2
           (registration_open_means_room 100 Published Samples.open_activity))).
  reflexivity.
Defined.


(** The two documents a successful [removeParticipant] leaves. *)
Lemma removeParticipant_stored u a s :
  removeParticipant u a = Some (Ok s) ->
  exists p,
    find (has_user u) (participants a) = Some p /\
    participants (resolved s) =
      (if promotes u a
       then update_first waitlisted promote (participants a)
       else participants a) /\
    stored s =
      (if promotes u a then resolved s
       else with_participants (pull_user u (participants a)) (resolved s)) /\
    capacity (resolved s) =
      match p_status p, find waitlisted (participants a) with
      | Registered, Some _ =>
          mkCapacity (c_max (capacity a)) (c_current (capacity a) - 1 + 1)
                     (c_waitlist (capacity a) - 1)
      | Registered, None =>
          mkCapacity (c_max (capacity a)) (c_current (capacity a) - 1)
                     (c_waitlist (capacity a))
      | Waitlisted, _ =>
          mkCapacity (c_max (capacity a)) (c_current (capacity a))
                     (c_waitlist (capacity a) - 1)
      | _, _ => capacity a
      end.
Proof.
  unfold removeParticipant, promotes.
  destruct (find (has_user u) (participants a)) as [p|]; [|discriminate].
  intros H. exists p. split; [reflexivity|].
  destruct (p_status p); simpl in *;
    destruct (find waitlisted (participants a)); simpl in *;
    match type of H with
    | Some (bind (save ?x) _) = _ =>
        destruct (save x) as [a'|msg] eqn:Hsave; simpl in H; [|discriminate];
        apply save_ok_keeps in Hsave as (Hc & Hp & _);
        injection H as <-; simpl; rewrite Hc, Hp; simpl;
        destruct (capacity a); repeat split; reflexivity
    end.
Qed.



(** X8.  [getParticipantStats] counts every participant exactly once:
    the five figures add up to the number of participants. *)
Theorem participant_stats_add_up :
  forall a,
    (st_registered (getParticipantStats a)
     + st_attended (getParticipantStats a)
     + st_noShows (getParticipantStats a)
     + st_cancelled (getParticipantStats a)
     + st_waitlisted (getParticipantStats a))%nat
    = List.length (participants a).
Proof.
  intros a. unfold getParticipantStats; simpl.
  induction (participants a) as [|p r IH]; [reflexivity|].
  rewrite !count_status_cons. simpl List.length. rewrite <- IH.
  destruct (p_status p); simpl; lia.
Qed.

(** X9.  A participant added with a status other than 'registered'
    ('waitlisted' included) is appended with that status and moves no
    counter. *)
Theorem addParticipant_other_status_moves_no_counter :
  forall now u status a,
    is_registered status = false ->
    storable a ->
    exists a',
      addParticipant now u status a = Ok a' /\
      capacity a' = capacity a /\
      participants a' = participants a ++ [mkParticipant u now status].
Proof.
  intros now u status a Hst Hs.
  unfold addParticipant. rewrite Hst, andb_false_r.
  match goal with |- context [save ?x] =>
    destruct (save_storable x) as (a' & Hsave & Hcap & Hps & _) end.
  { exact Hs. }
  exists a'. now repeat split.
Qed.

Lemma addParticipant_other_status_moves_no_counter_witness :
  exists a',
    addParticipant 10 7 Waitlisted Samples.open_activity = Ok a' /\
    capacity a' = capacity Samples.open_activity /\
    participants a' =
      participants Samples.open_activity ++ [mkParticipant 7 10 Waitlisted].
Proof.
  apply (addParticipant_other_status_moves_no_counter 10 7 Waitlisted
           Samples.open_activity); [reflexivity|].
  unfold storable; simpl; lia.
Defined.

Lemma save_overbooked a :
  1 <= c_max (capacity a) ->
  c_max (capacity a) < c_current (capacity a) ->
  0 <= c_waitlist (capacity a) ->
  date_start a < date_end a ->
  save a = Err "Current registrations cannot exceed maximum capacity".
Proof.
  intros Hmax Hover Hw Hd.
  unfold save, validate, pre_save, bind.
  destruct (c_max (capacity a) <? 1) eqn:E1; [apply Z.ltb_lt in E1; lia|].
  destruct (c_current (capacity a) <? 0) eqn:E2; [apply Z.ltb_lt in E2; lia|].
  destruct (c_waitlist (capacity a) <? 0) eqn:E3; [apply Z.ltb_lt in E3; lia|].
  destruct (date_end a <=? date_start a) eqn:E4; [apply Z.leb_le in E4; lia|].
  destruct (c_max (capacity a) <? c_current (capacity a)) eqn:E5;
    [reflexivity | apply Z.ltb_ge in E5; lia].
Qed.

(** X10.  On an activity whose seat counter already exceeds its maximum
    the default [addParticipant] does not put the user on the waiting
    list: the hook rejects the save and nothing is stored. *)
Theorem addParticipant_rejected_when_overbooked :
  forall now u a,
    1 <= c_max (capacity a) ->
    c_max (capacity a) < c_current (capacity a) ->
    0 <= c_waitlist (capacity a) ->
    date_start a < date_end a ->
    addParticipant now u Registered a =
      Err "Current registrations cannot exceed maximum capacity".
Proof.
  intros now u a Hmax Hover Hw Hd.
  unfold addParticipant.
  assert (E : (c_max (capacity a) <=? c_current (capacity a)) = true)
    by (apply Z.leb_le; lia).
  rewrite E. simpl.
  apply save_overbooked; simpl; lia.
Qed.

Lemma addParticipant_rejected_when_overbooked_witness :
  addParticipant 40 9 Registered overbooked_activity =
    Err "Current registrations cannot exceed maximum capacity".
Proof.
  apply (addParticipant_rejected_when_overbooked 40 9 overbooked_activity);
    simpl; lia.
Defined.

End ActivityViewFacts.

(** ** Activity model: what a sequence of requests preserves *)

Module ActivityInvariantFacts.
Import Activity ActivityInvariant ActivityFacts ActivityViewFacts.

Lemma served_keeps_max_and_seats start finish max a :
  1 <= max -> start < finish ->
  served (fresh start finish max) a ->
  c_max (capacity a) = max /\ no_idle_seat a.
Proof.
  intros Hmax Hd Hserved.
  induction Hserved as [|a r Hprev [IHmax IHidle] Hadm].
  - split; [reflexivity|]. unfold no_idle_seat; simpl; lia.
  - destruct (served_counters_ok _ _ _ _ Hmax Hd Hprev) as (Hs & Hc & Hu).
    destruct r as [now u|u]; simpl.
    + destruct (addParticipant_registers_or_waitlists now u a Hs)
        as (a' & -> & _ & Heff).
      pose proof Hs as (_ & [_ Hle] & _).
      unfold no_idle_seat in *.
      destruct (c_current (capacity a) <? c_max (capacity a)) eqn:E;
        destruct Heff as [_ ->]; simpl;
        [apply Z.ltb_lt in E | apply Z.ltb_ge in E]; split; try assumption; lia.
    + destruct (removeParticipant u a) as [[s|msg]|] eqn:Hrm;
        [|now split|now split].
      unfold no_idle_seat in *.
      destruct (removeParticipant_stored u a s Hrm) as (p & _ & _ & Hst & Hcap).
      assert (Hsame : capacity (stored s) = capacity (resolved s))
        by (rewrite Hst; destruct (promotes u a); reflexivity).
      rewrite Hsame, Hcap.
      destruct Hc as (_ & _ & Hwl).
      destruct (p_status p);
        destruct (find waitlisted (participants a)) eqn:Hw; simpl;
        try (split; [assumption | lia]).
      rewrite (count_waitlisted_none _ Hw) in Hwl. split; [assumption | lia].
Qed.

(** X11.  Starting from a new activity and serving registrations of
    users who have no entry, and withdrawals that promote nobody, the
    stored counters always agree with [getParticipantStats]: [current]
    is the number of registered participants and [waitlist] the number
    of waitlisted ones; [current] stays within [max], no user has two
    entries, and nobody is on the waiting list while a seat is free. *)
Theorem served_activity_is_consistent :
  forall start finish max a,
    1 <= max -> start < finish ->
    served (fresh start finish max) a ->
    c_current (capacity a) = Z.of_nat (st_registered (getParticipantStats a)) /\
    c_waitlist (capacity a) = Z.of_nat (st_waitlisted (getParticipantStats a)) /\
    c_current (capacity a) <= c_max (capacity a) /\
    c_max (capacity a) = max /\
    NoDup (map p_user (participants a)) /\
    (0 < c_waitlist (capacity a) -> c_current (capacity a) = c_max (capacity a)).
Proof.
  intros start finish max a Hmax Hd Hserved.
  destruct (served_counters_ok _ _ _ _ Hmax Hd Hserved)
    as (_ & (Hle & Hcur & Hwl) & Hu).
  destruct (served_keeps_max_and_seats _ _ _ _ Hmax Hd Hserved) as [Hm Hidle].
  repeat split; assumption.
Qed.

Lemma served_activity_is_consistent_witness :
  let a := serve (Register 20 2) (serve (Register 10 1) (fresh 1000 2000 1)) in
  c_current (capacity a) = Z.of_nat (st_registered (getParticipantStats a)) /\
  c_waitlist (capacity a) = Z.of_nat (st_waitlisted (getParticipantStats a)) /\
  c_current (capacity a) <= c_max (capacity a) /\
  c_max (capacity a) = 1 /\
  NoDup (map p_user (participants a)) /\
  (0 < c_waitlist (capacity a) -> c_current (capacity a) = c_max (capacity a)).
Proof.
  apply (served_activity_is_consistent 1000 2000 1); [lia | lia |].
  apply served_step; [apply served_step; [apply served_start|] |].
  - simpl. intros [].
  - simpl. intros [H|[]]. discriminate H.
Defined.



End ActivityInvariantFacts.

(** ** Middleware: who is let through *)

Module AuthFacts.
Import Users Auth.

(** X13.  [authorize] lets a request through exactly when it carries a
    user whose role is one of the listed ones, answers 401 without a user
    and 403 otherwise.  With the list the management routes pass,
    'shelter_admin' and 'admin', and the roles the User schema allows,
    only administrators get through: a shelter account is answered 403. *)
Theorem authorize_admits_listed_roles_only :
  forall roles user,
    (authorize roles user = CallNext <->
     exists u, user = Some u /\ In (role_name (u_role u)) roles) /\
    (user = None ->
     authorize roles user = Reply 401 "Not authorized to access this route") /\
    (forall u, user = Some u -> ~ In (role_name (u_role u)) roles ->
       authorize roles user =
         Reply 403 ("User role " ++ role_name (u_role u)
                    ++ " is not authorized to access this route")%string) /\
    (forall u, shelter_admin_guard (Some u) = CallNext <-> u_role u = RoleAdmin) /\
    (forall u, u_role u = RoleShelter ->
       shelter_admin_guard (Some u) =
         Reply 403 "User role shelter is not authorized to access this route").
Proof.
  intros roles user. split; [|split; [|split; [|split]]].
  - unfold authorize. destruct user as [u|].
    + destruct (existsb (String.eqb (role_name (u_role u))) roles) eqn:E.
      * split; [|reflexivity]. intros _. exists u. split; [reflexivity|].
        apply existsb_exists in E as (r & Hin & Hr).
        apply String.eqb_eq in Hr. now subst r.
      * split; [discriminate|]. intros (u' & [= <-] & Hin).
        assert (H : existsb (String.eqb (role_name (u_role u))) roles = true).
        { apply existsb_exists. eexists; split; [exact Hin|].
          apply String.eqb_refl. }
        congruence.
    + split; [discriminate | intros (u' & H & _); discriminate H].
  - intros ->. reflexivity.
  - intros u -> Hnot. unfold authorize.
    destruct (existsb (String.eqb (role_name (u_role u))) roles) eqn:E;
      [|reflexivity].
    exfalso. apply Hnot.
    apply existsb_exists in E as (r & Hin & Hr).
    apply String.eqb_eq in Hr. now subst r.
  - intros [id role]. unfold shelter_admin_guard, authorize; simpl.
    destruct role; simpl; split; intros H; try discriminate; reflexivity.
  - intros [id role]; simpl; intros ->. reflexivity.
Qed.

(** *** The limiter *)

Lemma attempts_of_set key times m k :
  attempts_of (attempts_set key times m) k =
  if String.eqb k key then times else attempts_of m k.
Proof.
  unfold attempts_of, attempts_set. destruct (String.eqb k key); reflexivity.
Qed.

(** One request: what is kept for its key, and that other keys are left
    alone. *)
Lemma limit_step maxAttempts windowMs key now attempts :
  let kept := filter (fun time => now - windowMs <? time) (attempts_of attempts key) in
  let result := sensitiveOperationLimit maxAttempts windowMs key now attempts in
  passed (fst result) = negb (maxAttempts <=? Z.of_nat (List.length kept)) /\
  attempts_of (snd result) key =
    kept ++ (if passed (fst result) then [now] else []) /\
  (forall k, k <> key -> attempts_of (snd result) k = attempts_of attempts k).
Proof.
  intros kept result. subst kept result.
  unfold sensitiveOperationLimit.
  assert (Hkept :
    attempts_of
      (match attempts key with
       | Some times =>
           attempts_set key
             (filter (fun time => now - windowMs <? time) times) attempts
       | None => attempts
       end) key =
    filter (fun time => now - windowMs <? time) (attempts_of attempts key)).
  { unfold attempts_of at 2. destruct (attempts key) eqn:E.
    - rewrite attempts_of_set, String.eqb_refl. reflexivity.
    - unfold attempts_of. now rewrite E. }
  assert (Hother : forall k, k <> key ->
    attempts_of
      (match attempts key with
       | Some times =>
           attempts_set key
             (filter (fun time => now - windowMs <? time) times) attempts
       | None => attempts
       end) k = attempts_of attempts k).
  { intros k Hk. destruct (attempts key); [|reflexivity].
    rewrite attempts_of_set.
    destruct (String.eqb k key) eqn:E; [|reflexivity].
    apply String.eqb_eq in E. contradiction. }
  rewrite Hkept.
  destruct (maxAttempts <=? _) eqn:E; simpl.
  - rewrite Hkept, app_nil_r. repeat split. exact Hother.
  - rewrite attempts_of_set, String.eqb_refl. repeat split.
    intros k Hk. rewrite attempts_of_set.
    destruct (String.eqb k key) eqn:E'; [|now apply Hother].
    apply String.eqb_eq in E'. contradiction.
Qed.

Lemma filter_above_twice (lo hi : Z) (l : list Z) :
  lo <= hi ->
  filter (fun time => hi <? time) (filter (fun time => lo <? time) l) =
  filter (fun time => hi <? time) l.
Proof.
  intros Hle. induction l as [|x r IH]; simpl; [reflexivity|].
  destruct (lo <? x) eqn:E1; simpl.
  - destruct (hi <? x); [now rewrite IH | exact IH].
  - destruct (hi <? x) eqn:E2; [|exact IH].
    apply Z.ltb_lt in E2. apply Z.ltb_ge in E1. lia.
Qed.

Lemma times_of_app key h1 h2 :
  times_of key (h1 ++ h2) = times_of key h1 ++ times_of key h2.
Proof. unfold times_of. now rewrite filter_app, map_app. Qed.

(** Among requests that came no later than [c], the window ending at [c]
    holds those recorded after its start. *)
Lemma window_count_recent windowMs c h :
  (forall c', In c' h -> call_time c' <= call_time c) ->
  window_count windowMs c h =
  List.length
    (filter (fun time => call_time c - windowMs <? time)
            (times_of (call_key c) h)).
Proof.
  unfold window_count, times_of, in_window.
  induction h as [|x r IH]; simpl; intros Hle; [reflexivity|].
  assert (Hx : (call_time x <=? call_time c) = true)
    by (apply Z.leb_le, Hle; now left).
  rewrite Hx, andb_true_r.
  destruct (String.eqb (call_key x) (call_key c)); simpl.
  - destruct (call_time c - windowMs <? call_time x); simpl;
      rewrite IH; auto.
  - apply IH; auto.
Qed.

Lemma window_count_same windowMs c c0 h :
  call_key c0 = call_key c -> call_time c0 = call_time c ->
  window_count windowMs c0 h = window_count windowMs c h.
Proof.
  intros Hk Ht. unfold window_count, in_window. now rewrite Hk, Ht.
Qed.

Lemma let_through_bounded maxAttempts windowMs :
  0 < windowMs ->
  forall calls attempts history t,
    tracks windowMs t attempts history ->
    every_window_bounded maxAttempts windowMs history ->
    (forall c, In c history -> call_time c <= t) ->
    (forall c, In c calls -> t <= call_time c) ->
    by_time calls ->
    every_window_bounded maxAttempts windowMs
      (history ++ let_through maxAttempts windowMs calls attempts).
Proof.
  intros Hw calls.
  induction calls as [|c rest IH];
    intros attempts history t Htracks Hbounded Hpast Hfuture Hsorted.
  - simpl. now rewrite app_nil_r.
  - simpl.
    pose proof (limit_step maxAttempts windowMs (call_key c) (call_time c)
                  attempts) as Hstep.
    destruct (sensitiveOperationLimit maxAttempts windowMs (call_key c)
                (call_time c) attempts) as [verdict attempts'].
    simpl in Hstep. destruct Hstep as (Hpass & Hkey & Hother).
    assert (Hnow : t <= call_time c) by (apply Hfuture; now left).
    inversion Hsorted as [|? ? Hsorted' Hall]; subst.
    rewrite Forall_forall in Hall.
    destruct (Htracks (call_key c)) as (threshold & Hth & Hrec).
    assert (Hkept :
      filter (fun time => call_time c - windowMs <? time)
             (attempts_of attempts (call_key c)) =
      filter (fun time => call_time c - windowMs <? time)
             (times_of (call_key c) history)).
    { rewrite Hrec. apply filter_above_twice. lia. }
    rewrite Hkept in Hpass, Hkey.
    destruct (passed verdict) eqn:Hv.
    + (* let through *)
      rewrite app_assoc.
      symmetry in Hpass. apply negb_true_iff, Z.leb_gt in Hpass.
      apply (IH attempts' (history ++ [c]) (call_time c)).
      * intros key. destruct (String.eqb key (call_key c)) eqn:E.
        -- apply String.eqb_eq in E. subst key.
           exists (call_time c - windowMs). split; [lia|].
           rewrite Hkey, times_of_app, filter_app. f_equal.
           unfold times_of; simpl. rewrite String.eqb_refl. simpl.
           assert (H : (call_time c - windowMs <? call_time c) = true)
             by (apply Z.ltb_lt; lia).
           now rewrite H.
        -- apply String.eqb_neq in E.
           destruct (Htracks key) as (th & Hth' & Hrec').
           exists th. split; [lia|].
           rewrite (Hother key E), Hrec', times_of_app.
           unfold times_of at 3; simpl.
           assert (H : String.eqb (call_key c) key = false)
             by (apply String.eqb_neq; congruence).
           rewrite H. simpl. now rewrite app_nil_r.
      * intros c0 Hin.
        assert (Hpast' : forall c', In c' (history ++ [c]) ->
                  call_time c' <= call_time c).
        { intros c' Hc'. apply in_app_or in Hc' as [Hc'|[<-|[]]]; [|lia].
          specialize (Hpast c' Hc'). lia. }
        assert (Hnew :
          Z.of_nat (window_count windowMs c (history ++ [c])) <= maxAttempts).
        { rewrite (window_count_recent windowMs c _ Hpast').
          rewrite times_of_app, filter_app, length_app.
          unfold times_of at 2; simpl. rewrite String.eqb_refl. simpl.
          assert (H : (call_time c - windowMs <? call_time c) = true)
            by (apply Z.ltb_lt; lia).
          rewrite H. simpl. lia. }
        destruct (in_window windowMs c0 c) eqn:Ewin.
        -- unfold in_window in Ewin.
           apply andb_true_iff in Ewin as [Ewin Hle].
           apply andb_true_iff in Ewin as [Hk _].
           apply String.eqb_eq in Hk. apply Z.leb_le in Hle.
           specialize (Hpast' c0 Hin).
           rewrite (window_count_same windowMs c c0); [exact Hnew | auto | lia].
        -- apply in_app_or in Hin as [Hin|[<-|[]]].
           ++ unfold window_count. rewrite filter_app, length_app. simpl.
              rewrite Ewin. simpl. rewrite Nat.add_0_r.
              now apply Hbounded.
           ++ exact Hnew.
      * intros c' Hc'. apply in_app_or in Hc' as [Hc'|[<-|[]]]; [|lia].
        specialize (Hpast c' Hc'). lia.
      * intros c' Hc'. now apply Hall.
      * exact Hsorted'.
    + (* turned away *)
      simpl. apply (IH attempts' history (call_time c)).
      * intros key. destruct (String.eqb key (call_key c)) eqn:E.
        -- apply String.eqb_eq in E. subst key.
           exists (call_time c - windowMs). split; [lia|].
           now rewrite Hkey, app_nil_r.
        -- apply String.eqb_neq in E.
           destruct (Htracks key) as (th & Hth' & Hrec').
           exists th. split; [lia|]. now rewrite (Hother key E).
      * exact Hbounded.
      * intros c' Hc'. specialize (Hpast c' Hc'). lia.
      * intros c' Hc'. now apply Hall.
      * exact Hsorted'.
Qed.

(** X14.  The limiter keeps its promise over any sequence of requests
    arriving in time order, starting with nothing recorded: for every
    request it lets through, the requests let through under the same key
    within the [windowMs] before it, itself included, number at most
    [maxAttempts]. *)
Theorem limiter_bounds_every_window :
  forall maxAttempts windowMs calls,
    0 < windowMs ->
    by_time calls ->
    forall c,
      In c (let_through maxAttempts windowMs calls no_attempts) ->
      Z.of_nat (window_count windowMs c
                  (let_through maxAttempts windowMs calls no_attempts))
      <= maxAttempts.
Proof.
  intros maxAttempts windowMs calls Hw Hsorted.
  destruct calls as [|c0 rest]; [intros c []|].
  apply (let_through_bounded maxAttempts windowMs Hw (c0 :: rest)
           no_attempts [] (call_time c0)).
  - intros key. exists (call_time c0 - windowMs). split; [lia | reflexivity].
  - intros c [].
  - intros c [].
  - intros c [<-|Hin]; [lia|].
    inversion Hsorted as [|? ? _ Hall]; subst.
    rewrite Forall_forall in Hall. now apply Hall.
  - exact Hsorted.
Qed.

Lemma limiter_bounds_every_window_witness :
  let calls := [mkCall "10.0.0.1" 0; mkCall "10.0.0.1" 10;
                mkCall "10.0.0.1" 20; mkCall "10.0.0.1" 2000] in
  let_through 2 1000 calls no_attempts =
    [mkCall "10.0.0.1" 0; mkCall "10.0.0.1" 10; mkCall "10.0.0.1" 2000] /\
  Z.of_nat (window_count 1000 (mkCall "10.0.0.1" 10)
              (let_through 2 1000 calls no_attempts)) <= 2.
Proof.
  split; [reflexivity|].
  apply (limiter_bounds_every_window 2 1000
           [mkCall "10.0.0.1" 0; mkCall "10.0.0.1" 10;
            mkCall "10.0.0.1" 20; mkCall "10.0.0.1" 2000]).
  - lia.
  - unfold by_time.
    repeat (constructor; [|repeat (constructor; simpl; try lia)]).
    constructor.
  - simpl. right. left. reflexivity.
Defined.

End AuthFacts.

(** ** Middleware: refusals *)

Module ProtectFacts.
Import Users Auth Protect AuthFacts.

Lemma ceil_seconds_positive x : 0 < x -> 1 <= ceil_seconds x.
Proof.
  intros Hx. unfold ceil_seconds.
  assert (H : (- x) / 1000 < 0) by (apply Z.div_lt_upper_bound; lia).
  lia.
Qed.

Lemma ceil_seconds_mono x y : x <= y -> ceil_seconds x <= ceil_seconds y.
Proof.
  intros Hxy. unfold ceil_seconds.
  assert (H : (- y) / 1000 <= (- x) / 1000) by (apply Z.div_le_mono; lia).
  lia.
Qed.

Lemma limit_verdict maxAttempts windowMs key now attempts :
  let kept := filter (fun time => now - windowMs <? time) (attempts_of attempts key) in
  fst (sensitiveOperationLimit maxAttempts windowMs key now attempts) =
    if maxAttempts <=? Z.of_nat (List.length kept)
    then TooMany (match kept with
                  | first :: _ => Some (ceil_seconds (first + windowMs - now))
                  | [] => None
                  end)
    else Passed.
Proof.
  intros kept. subst kept. unfold sensitiveOperationLimit.
  assert (Hkept :
    attempts_of
      (match attempts key with
       | Some times =>
           attempts_set key
             (filter (fun time => now - windowMs <? time) times) attempts
       | None => attempts
       end) key =
    filter (fun time => now - windowMs <? time) (attempts_of attempts key)).
  { unfold attempts_of at 2. destruct (attempts key) eqn:E.
    - rewrite attempts_of_set, String.eqb_refl. reflexivity.
    - unfold attempts_of. now rewrite E. }
  rewrite Hkept.
  destruct (maxAttempts <=? _); reflexivity.
Qed.

(** X15.  When the limiter turns a request away it records nothing for
    it: the key keeps the attempts of the current window only, so a
    refused request does not prolong the lock-out.  With at least one
    attempt allowed and no recorded attempt in the future, the
    [retryAfter] it announces is a whole number of seconds between 1 and
    the length of the window. *)
Theorem limiter_refusal_records_nothing :
  forall maxAttempts windowMs key now attempts retryAfter attempts',
    1 <= maxAttempts ->
    0 < windowMs ->
    (forall time, In time (attempts_of attempts key) -> time <= now) ->
    sensitiveOperationLimit maxAttempts windowMs key now attempts =
      (TooMany retryAfter, attempts') ->
    attempts_of attempts' key =
      filter (fun time => now - windowMs <? time) (attempts_of attempts key) /\
    (forall k, k <> key -> attempts_of attempts' k = attempts_of attempts k) /\
    exists seconds,
      retryAfter = Some seconds /\
      1 <= seconds <= ceil_seconds windowMs.
Proof.
  intros maxAttempts windowMs key now attempts retryAfter attempts'
         Hmax Hw Hpast Hrun.
  pose proof (limit_step maxAttempts windowMs key now attempts) as Hstep.
  pose proof (limit_verdict maxAttempts windowMs key now attempts) as Hverdict.
  simpl in Hstep, Hverdict. rewrite Hrun in Hstep, Hverdict.
  simpl in Hstep, Hverdict.
  destruct Hstep as (_ & Hkey & Hother).
  rewrite app_nil_r in Hkey.
  split; [exact Hkey|]. split; [exact Hother|].
  destruct (maxAttempts <=? _) eqn:Hfull in Hverdict; [|discriminate].
  apply Z.leb_le in Hfull.
  destruct (filter (fun time => now - windowMs <? time) (attempts_of attempts key))
    as [|first rest] eqn:Hkept.
  - simpl in Hfull. lia.
  - assert (Hin : In first (filter (fun time => now - windowMs <? time)
                              (attempts_of attempts key)))
      by (rewrite Hkept; now left).
    apply filter_In in Hin as [Hin Hrecent]. apply Z.ltb_lt in Hrecent.
    specialize (Hpast first Hin).
    injection Hverdict as ->.
    eexists. split; [reflexivity|]. split.
    + apply ceil_seconds_positive. lia.
    + apply ceil_seconds_mono. lia.
Qed.

Lemma limiter_refusal_records_nothing_witness :
  let attempts := attempts_set "10.0.0.1" [0; 10] no_attempts in
  let attempts' := snd (sensitiveOperationLimit 2 1000 "10.0.0.1" 20 attempts) in
  attempts_of attempts' "10.0.0.1" =
    filter (fun time => 20 - 1000 <? time) (attempts_of attempts "10.0.0.1") /\
  (forall k, k <> "10.0.0.1" -> attempts_of attempts' k = attempts_of attempts k) /\
  exists seconds,
    Some 1 = Some seconds /\ 1 <= seconds <= ceil_seconds 1000.
Proof.
  intros attempts attempts'.
  apply (limiter_refusal_records_nothing 2 1000 "10.0.0.1" 20 attempts
           (Some 1) attempts'); [lia | lia | | reflexivity].
  simpl. intros time [<-|[<-|[]]]; lia.
Defined.

(** X16.  Provided [jwt.verify] never decodes a missing or empty token,
    [protect] does exactly one thing: it hands over to the next handler,
    and then the header starts with 'Bearer', the token after the first
    space verifies and names a stored, active account, which is left in
    [req.user]; or it answers, and every answer is a 401. *)
Theorem protect_admits_active_accounts_only :
  forall (verify : option string -> Verified)
         (findById : nat -> result (option Account))
         (authorization : option string),
    (forall token id, no_token token = true -> verify token <> Decoded id) ->
    (exists header id account,
        authorization = Some header /\
        String.prefix "Bearer" header = true /\
        verify (nth_error (split_spaces header) 1) = Decoded id /\
        findById id = Ok (Some account) /\
        acc_isActive account = true /\
        protect verify findById authorization = ([CallNext], Some account))
    \/
    (exists message user,
        protect verify findById authorization = ([Reply 401 message], user)).
Proof.
  intros verify findById authorization Hstrict.
  unfold protect.
  destruct authorization as [header|];
    [|right; eexists; eexists; reflexivity].
  destruct (String.prefix "Bearer" header) eqn:Hb;
    [|right; eexists; eexists; reflexivity].
  destruct (verify (nth_error (split_spaces header) 1)) as [id|name] eqn:Hv.
  - destruct (findById id) as [[account|]|name] eqn:Hf.
    + destruct (acc_isActive account) eqn:Ha; cbn [negb].
      * left. exists header, id, account.
        destruct (no_token (nth_error (split_spaces header) 1)) eqn:Hn.
        -- exfalso. exact (Hstrict _ id Hn Hv).
        -- repeat split; try assumption; reflexivity.
      * right. eexists; eexists; reflexivity.
    + right. eexists; eexists; reflexivity.
    + right. unfold refusal.
      destruct (String.eqb name "JsonWebTokenError");
        [|destruct (String.eqb name "TokenExpiredError")];
        eexists; eexists; reflexivity.
  - right. unfold refusal.
    destruct (String.eqb name "JsonWebTokenError");
      [|destruct (String.eqb name "TokenExpiredError")];
      eexists; eexists; reflexivity.
Qed.

Lemma protect_admits_active_accounts_only_witness :
  protect sample_verify sample_accounts (Some "Bearer good") =
    ([CallNext], Some (mkAccount (mkUser 7 RoleUser) true)) /\
  protect sample_verify sample_accounts (Some "Bearer old") =
    ([Reply 401 "Token expired"], None) /\
  ((exists header id account,
        Some "Bearer good" = Some header /\
        String.prefix "Bearer" header = true /\
        sample_verify (nth_error (split_spaces header) 1) = Decoded id /\
        sample_accounts id = Ok (Some account) /\
        acc_isActive account = true /\
        protect sample_verify sample_accounts (Some "Bearer good") =
          ([CallNext], Some account))
   \/
   (exists message user,
        protect sample_verify sample_accounts (Some "Bearer good") =
          ([Reply 401 message], user))).
Proof.
  split; [reflexivity|]. split; [reflexivity|].
  apply (protect_admits_active_accounts_only sample_verify sample_accounts
           (Some "Bearer good")).
  intros [t|] id Hn; simpl in *.
  - rewrite String.eqb_eq in Hn. subst t. discriminate.
  - discriminate.
Defined.

End ProtectFacts.

(** ** The error handler *)

Module ErrorHandlerFacts.
Import ErrorHandler.

Lemma or_number_truthy o default :
  default <> 0 -> truthy_number (Some (or_number o default)) = Some (or_number o default).
Proof.
  intros Hd. unfold or_number, truthy_number.
  destruct o as [n|].
  - destruct (n =? 0) eqn:E.
    + destruct (default =? 0) eqn:E'; [apply Z.eqb_eq in E'; contradiction|].
      reflexivity.
    + now rewrite E.
  - destruct (default =? 0) eqn:E'; [apply Z.eqb_eq in E'; contradiction|].
    reflexivity.
Qed.

(** When [classify] gets through. *)
Lemma classify_readable err :
  unreadable err = false -> exists error, classify err = Ok error.
Proof.
  unfold unreadable, classify, bind. intros H.
  apply orb_false_iff in H as [H1 H2].
  destruct (has_code_number 11000 err).
  - destruct (err_keyValue err); [|discriminate].
    destruct (named "ValidationError" err).
    + destruct (err_errors err); [|discriminate]. eexists; reflexivity.
    + eexists; reflexivity.
  - destruct (named "ValidationError" err).
    + destruct (err_errors err); [|discriminate]. eexists; reflexivity.
    + eexists; reflexivity.
Qed.

Lemma classify_unreadable err :
  unreadable err = true -> classify err = Err "TypeError".
Proof.
  unfold unreadable, classify, bind. intros H.
  destruct (has_code_number 11000 err).
  - destruct (err_keyValue err); [|reflexivity].
    destruct (named "ValidationError" err); [|discriminate].
    destruct (err_errors err); [discriminate | reflexivity].
  - destruct (named "ValidationError" err); [|discriminate].
    destruct (err_errors err); [discriminate | reflexivity].
Qed.

Lemma classify_rate_limit err error :
  err_status err = Some 429 ->
  classify err = Ok error ->
  error =
    mkWorking (Some "Too many requests. Please try again later.") (Some 429)
      None None (Some (or_number (err_retryAfter err) 900)).
Proof.
  intros H429. unfold classify, bind.
  assert (Hs : has_status 429 err = true)
    by (unfold has_status; now rewrite H429).
  rewrite Hs.
  destruct (has_code_number 11000 err).
  - destruct (err_keyValue err); [|discriminate].
    destruct (named "ValidationError" err).
    + destruct (err_errors err); [|discriminate]. now intros [= <-].
    + now intros [= <-].
  - destruct (named "ValidationError" err).
    + destruct (err_errors err); [|discriminate]. now intros [= <-].
    + now intros [= <-].
Qed.

(** X17.  A rate-limit error (status 429) is answered as such whatever
    else the error looks like, the later test overriding the earlier
    ones: status 429, the fixed message, and a [retryAfter] equal to the
    error's own or, failing that, 900 seconds, sent both in the body and
    as the [Retry-After] header; no field and no validation errors are
    attached. *)
Theorem rate_limit_error_wins :
  forall development err,
    err_status err = Some 429 ->
    unreadable err = false ->
    exists res,
      errorHandler development err = Ok res /\
      res_status res = 429 /\
      res_message res = "Too many requests. Please try again later." /\
      res_retryAfter res = Some (or_number (err_retryAfter err) 900) /\
      res_retryAfterHeader res = Some (or_number (err_retryAfter err) 900) /\
      res_errors res = None /\
      res_field res = None.
Proof.
  intros development err H429 Hread.
  destruct (classify_readable err Hread) as (error & Hc).
  pose proof (classify_rate_limit err error H429 Hc) as ->.
  unfold errorHandler, bind. rewrite Hc. simpl w_retryAfter.
  rewrite or_number_truthy by discriminate.
  eexists. split; [reflexivity|]. repeat split.
Qed.

Lemma rate_limit_error_wins_witness :
  exists res,
    errorHandler false rate_limit_error = Ok res /\
    res_status res = 429 /\
    res_message res = "Too many requests. Please try again later." /\
    res_retryAfter res = Some (or_number (err_retryAfter rate_limit_error) 900) /\
    res_retryAfterHeader res = Some (or_number (err_retryAfter rate_limit_error) 900) /\
    res_errors res = None /\
    res_field res = None.
Proof.
  apply (rate_limit_error_wins false rate_limit_error); reflexivity.
Defined.

(** X18.  The handler itself throws in exactly two situations: a
    duplicate-key error (code 11000) that carries no [keyValue], and a
    ValidationError that carries no [errors].  In every other case it
    answers, outside development without the error object or its stack,
    and the status it answers with is 400, 401, 404, 408, 429 or 500
    unless the error brings a status code of its own. *)
Theorem error_handler_answers_unless_unreadable :
  forall development err,
    if unreadable err
    then errorHandler development err = Err "TypeError"
    else
      exists res,
        errorHandler development err = Ok res /\
        (development = false -> res_error res = None /\ res_stack res = None) /\
        (In (res_status res) [400; 401; 404; 408; 429; 500] \/
         Some (res_status res) = truthy_number (err_statusCode err)).
Proof.
  intros development err.
  destruct (unreadable err) eqn:Hread.
  - unfold errorHandler, bind. now rewrite (classify_unreadable err Hread).
  - destruct (classify_readable err Hread) as (error & Hc).
    unfold errorHandler, bind. rewrite Hc.
    eexists. split; [reflexivity|]. split.
    + intros ->. split; reflexivity.
    + simpl res_status.
      assert (Hcode :
        w_statusCode error = err_statusCode err \/
        In (w_statusCode error)
           [Some 400; Some 401; Some 404; Some 408; Some 429; Some 500]).
      { revert Hc. unfold classify, bind.
        destruct (named "CastError" err);
        destruct (has_code_number 11000 err);
        try (destruct (err_keyValue err); [|discriminate]);
        destruct (named "ValidationError" err);
        try (destruct (err_errors err); [|discriminate]);
        destruct (named "JsonWebTokenError" err);
        destruct (named "TokenExpiredError" err);
        destruct (has_code_text "LIMIT_FILE_SIZE" err);
        destruct (has_code_text "LIMIT_UNEXPECTED_FILE" err);
        destruct (named "MongooseError" err || named "MongoError" err);
        destruct (has_code_text "ETIMEDOUT" err);
        destruct (has_status 429 err);
        intros [= <-]; simpl; tauto. }
      destruct Hcode as [Hown | Hfixed].
      * rewrite Hown. unfold or_number.
        destruct (truthy_number (err_statusCode err)) as [n|];
          [right; reflexivity | left; simpl; tauto].
      * simpl in Hfixed.
        repeat destruct Hfixed as [Hfixed | Hfixed];
          try contradiction; rewrite <- Hfixed; simpl; tauto.
Qed.

End ErrorHandlerFacts.

(** ** GET /api/adoptions *)

Module ListingFacts.
Import Users Listing.

Lemma totalPages_covers : forall total limit : nat,
  (1 <= limit)%nat -> (total <= totalPages total limit * limit)%nat.
Proof.
  intros total limit Hl. unfold totalPages.
  assert (Hm := Nat.div_mod_eq total limit).
  assert (Hr : (total mod limit < limit)%nat) by (apply Nat.mod_upper_bound; lia).
  destruct (Nat.eqb (total mod limit) 0) eqn:E.
  - apply Nat.eqb_eq in E. nia.
  - nia.
Qed.

Lemma totalPages_tight : forall total limit : nat,
  (1 <= limit)%nat -> (1 <= total)%nat ->
  ((totalPages total limit - 1) * limit < total)%nat.
Proof.
  intros total limit Hl Ht. unfold totalPages.
  assert (Hm := Nat.div_mod_eq total limit).
  assert (Hr : (total mod limit < limit)%nat) by (apply Nat.mod_upper_bound; lia).
  destruct (Nat.eqb (total mod limit) 0) eqn:E.
  - apply Nat.eqb_eq in E.
    assert (1 <= total / limit)%nat by nia. nia.
  - apply Nat.eqb_neq in E. simpl. nia.
Qed.

Lemma page_of_next : forall (A : Type) (page limit : nat) (l : list A),
  (1 <= page)%nat ->
  page_of (S page) limit l = page_of page limit (skipn limit l).
Proof.
  intros A page limit l Hp. unfold page_of.
  rewrite skipn_skipn. f_equal. f_equal. nia.
Qed.

Lemma pages_concat : forall (A : Type) (limit pages : nat) (l : list A),
  (List.length l <= pages * limit)%nat ->
  List.concat (map (fun page => page_of page limit l) (seq 1 pages)) = l.
Proof.
  intros A limit pages. induction pages as [|pages IH]; intros l Hlen.
  - destruct l; [reflexivity | simpl in Hlen; lia].
  - cbn [seq map List.concat]. rewrite <- seq_shift, map_map.
    rewrite (map_ext_in _ (fun page => page_of page limit (skipn limit l))).
    + rewrite IH.
      * unfold page_of. simpl. apply firstn_skipn.
      * rewrite length_skipn. nia.
    + intros page Hin. apply in_seq in Hin. apply page_of_next. lia.
Qed.

Lemma page_of_beyond : forall (A : Type) (page limit : nat) (l : list A),
  (List.length l <= (page - 1) * limit)%nat -> page_of page limit l = [].
Proof.
  intros A page limit l H. unfold page_of.
  rewrite skipn_all2 by exact H. apply firstn_nil.
Qed.

Lemma page_of_length : forall (A : Type) (page limit : nat) (l : list A),
  (List.length (page_of page limit l) <= limit)%nat.
Proof.
  intros. unfold page_of. rewrite length_firstn. lia.
Qed.

Lemma page_of_incl : forall (A : Type) (page limit : nat) (l : list A) (x : A),
  In x (page_of page limit l) -> In x l.
Proof.
  intros A page limit l x H. unfold page_of in H.
  rewrite <- (firstn_skipn ((page - 1) * limit) l).
  apply in_or_app. right.
  rewrite <- (firstn_skipn limit (skipn ((page - 1) * limit) l)).
  apply in_or_app. now left.
Qed.

Lemma valid_params_page : forall page limit status shelter pet adopter,
  (1 <= page)%nat ->
  valid_params (mkParams (Some page) limit status shelter pet adopter)
  = valid_params (mkParams (Some 1%nat) limit status shelter pet adopter).
Proof.
  intros. unfold valid_params. simpl.
  destruct page; [lia | reflexivity].
Qed.

Section Walk.

Context {Stored : Type}.
Variable matching : Query -> list Stored.
Variable countDocuments : Query -> nat.
Hypothesis count_agrees :
  forall q, countDocuments q = List.length (matching q).

(** X19.  Walking through the pages of GET /api/adoptions: when the first
    page is served, the pages 1 to [totalPages] of the same query, one
    after the other, are exactly the documents the store selects for the
    filter, in its order, none skipped and none repeated; every page
    asked for after them is empty, and when there is a match at all the
    last of them is not. *)
Theorem pages_walk_through_all_matches :
  forall user limit status shelter pet adopter first,
    let ask page :=
      getAdoptions matching countDocuments user
        (mkParams (Some page) (Some limit) status shelter pet adopter) in
    let found :=
      matching (build_query user
                  (mkParams (Some 1%nat) (Some limit) status shelter pet
                            adopter)) in
    ask 1%nat = Found first ->
    List.concat (map (fun page => listed (ask page)) (seq 1 (pg_totalPages first)))
      = found
    /\ (forall page, (pg_totalPages first < page)%nat -> listed (ask page) = [])
    /\ (found <> [] -> listed (ask (pg_totalPages first)) <> [])
    /\ pg_total first = List.length found.
Proof.
  intros user limit status shelter pet adopter first ask found H1.
  unfold ask, getAdoptions in H1.
  destruct (valid_params (mkParams (Some 1%nat) (Some limit) status shelter pet
                                   adopter)) eqn:Hv; [|discriminate].
  cbn [negb pr_page pr_limit] in H1. injection H1 as H1. subst first.
  cbn [pg_totalPages pg_total].
  assert (Hlimit : (1 <= limit)%nat).
  { unfold valid_params in Hv. cbn [pr_page pr_limit] in Hv.
    apply andb_true_iff in Hv as [Hv _]. apply andb_true_iff in Hv as [_ Hv].
    apply andb_true_iff in Hv as [Hv _]. apply Nat.leb_le in Hv. exact Hv. }
  assert (Hask : forall page, (1 <= page)%nat ->
            listed (ask page) = page_of page limit found).
  { intros page Hp. unfold ask, getAdoptions.
    rewrite (valid_params_page page _ _ _ _ _ Hp), Hv. reflexivity. }
  set (total := countDocuments (build_query user
                  (mkParams (Some 1%nat) (Some limit) status shelter pet
                            adopter))) in *.
  assert (Hlen : List.length found = total)
    by (unfold found, total; symmetry; apply count_agrees).
  repeat split.
  - rewrite (map_ext_in _ (fun page => page_of page limit found)).
    + apply pages_concat. rewrite Hlen. now apply totalPages_covers.
    + intros page Hin. apply in_seq in Hin. apply Hask. lia.
  - intros page Hp. rewrite Hask by lia. apply page_of_beyond.
    rewrite Hlen. pose proof (totalPages_covers total limit Hlimit). nia.
  - intros Hne.
    assert (Ht : (1 <= total)%nat).
    { rewrite <- Hlen. destruct found; [congruence | simpl; lia]. }
    assert (Hp : (1 <= totalPages total limit)%nat).
    { pose proof (totalPages_covers total limit Hlimit).
      destruct (totalPages total limit); [simpl in *; lia | lia]. }
    rewrite Hask by exact Hp.
    pose proof (totalPages_tight total limit Hlimit Ht) as Htight.
    unfold page_of. intros Hnil.
    apply (f_equal (@List.length Stored)) in Hnil.
    rewrite length_firstn, length_skipn, Hlen in Hnil. simpl in Hnil. lia.
  - symmetry. exact Hlen.
Qed.

End Walk.

Lemma pages_walk_through_all_matches_witness :
  List.concat (map (fun page =>
                 listed (getAdoptions three_matches count_three
                           (mkUser 1 RoleAdmin)
                           (mkParams (Some page) (Some 2%nat) None None None None)))
              (seq 1 2))
  = [11; 12; 13]%nat.
Proof.
  apply (pages_walk_through_all_matches three_matches count_three
           (fun q => eq_refl) (mkUser 1 RoleAdmin) 2%nat None None None None
           (mkPage 2 3 2 1 [11; 12]%nat) eq_refl).
Defined.

(** X20.  Isolation of GET /api/adoptions at the handler: for an account
    of role [user] the filter handed to the store names that account as
    adopter and nothing else.  Every request on the served page is one
    the store selected for that filter and [total] is its count for it;
    a page never holds more than 100 requests; and the [adopter],
    [shelter], [pet] and [status] of the query string change nothing:
    every valid query with the same page and limit gets the same
    reply. *)
Theorem plain_user_lists_own_requests :
  forall (Stored : Type) (matching : Query -> list Stored)
         (countDocuments : Query -> nat) user params page,
    u_role user = RoleUser ->
    getAdoptions matching countDocuments user params = Found page ->
    let own := mkQuery (Some (u_id user)) None None None in
    (forall d, In d (pg_adoptions page) -> In d (matching own))
    /\ pg_total page = countDocuments own
    /\ (pg_count page <= 100)%nat
    /\ forall params',
         pr_page params' = pr_page params ->
         pr_limit params' = pr_limit params ->
         valid_params params' = true ->
         getAdoptions matching countDocuments user params' = Found page.
Proof.
  intros Stored matching countDocuments user params page Hrole H own.
  unfold getAdoptions in H.
  destruct (valid_params params) eqn:Hv; [|discriminate].
  cbn [negb] in H. injection H as H. subst page.
  cbn [pg_adoptions pg_total pg_count].
  assert (Hq : forall ps, build_query user ps = own).
  { intros ps. unfold build_query. now rewrite Hrole. }
  rewrite Hq. repeat split.
  - apply page_of_incl.
  - etransitivity; [apply page_of_length|].
    unfold valid_params in Hv.
    apply andb_true_iff in Hv as [Hv _]. apply andb_true_iff in Hv as [_ Hv].
    destruct (pr_limit params) as [l|]; [|lia].
    apply andb_true_iff in Hv as [_ Hv]. apply Nat.leb_le in Hv. exact Hv.
  - intros params' Hpage Hlimit Hv'. unfold getAdoptions.
    rewrite Hv', Hq, Hpage, Hlimit. reflexivity.
Qed.

Lemma plain_user_lists_own_requests_witness :
  getAdoptions three_matches count_three (mkUser 7 RoleUser)
    (mkParams None (Some 2%nat) (Some "approved") None None None)
  = Found (mkPage 2 3 2 1 [11; 12]%nat).
Proof.
  exact (proj2 (proj2 (proj2
    (plain_user_lists_own_requests nat three_matches count_three
       (mkUser 7 RoleUser)
       (mkParams None (Some 2%nat) None None None (Some 8%nat))
       (mkPage 2 3 2 1 [11; 12]%nat) eq_refl eq_refl)))
    (mkParams None (Some 2%nat) (Some "approved") None None None)
    eq_refl eq_refl eq_refl).
Defined.

End ListingFacts.

(** ** Cancelling and editing a request *)

Module OwnerRouteFacts.
Import Users Auth AdoptionRoutes OwnerRoutes.

(** X21.  DELETE /api/adoptions/:id on an application of the Adoption
    model, whoever asks, the applicant and an administrator included,
    and whatever its status: the handler reads [adoption.adopter], which
    no document of the model has, and the TypeError goes to [next];
    nothing is saved, so no application is ever cancelled through this
    route.  It answers 200 only for a document on which [adopter] reads
    as a value. *)
Theorem cancel_fails_on_stored_application :
  forall (save : Owned -> result Owned) now user,
    (forall d : Adoption.Doc,
       deleteAdoption save now user (Some (read d))
       = (Failed "TypeError", Some (read d)))
    /\ (forall adoption message after,
          deleteAdoption save now user (Some adoption)
          = (Json 200 message, after) ->
          ow_adopter adoption <> None).
Proof.
  intros save now user. split; [reflexivity|].
  intros adoption message after. unfold deleteAdoption.
  destruct (ow_adopter adoption); [discriminate|].
  intros H. discriminate H.
Qed.

(** X22.  PUT /api/adoptions/:id on an application of the Adoption model
    fails the same way, whoever asks and whatever the body holds:
    nothing is saved, so no application is ever edited through this
    route.  It answers 200 only for a document on which [adopter] reads
    as a value. *)
Theorem edit_fails_on_stored_application :
  forall (save : Owned -> result Owned) user sent,
    (forall d : Adoption.Doc,
       putAdoption save user sent (Some (read d))
       = (Failed "TypeError", Some (read d)))
    /\ (forall adoption message after,
          putAdoption save user sent (Some adoption)
          = (Json 200 message, after) ->
          ow_adopter adoption <> None).
Proof.
  intros save user sent. split; [reflexivity|].
  intros adoption message after. unfold putAdoption.
  destruct (ow_adopter adoption); [discriminate|].
  intros H. discriminate H.
Qed.

End OwnerRouteFacts.


(** ** Pet images *)

Module PetImageFacts.
Import PetImages.

Lemma keep_first_primary_seen : forall images,
  snd (keep_first_primary true images) = true
  /\ primaries (fst (keep_first_primary true images)) = 0%nat.
Proof.
  unfold primaries. induction images as [|img rest [IH1 IH2]]; simpl.
  - split; reflexivity.
  - destruct (keep_first_primary true rest) as [rest' seen]. simpl in *.
    destruct (isPrimary img) eqn:E; simpl; [|rewrite E]; auto.
Qed.

Lemma keep_first_primary_fresh : forall images,
  snd (keep_first_primary false images) = existsb isPrimary images
  /\ primaries (fst (keep_first_primary false images))
     = (if existsb isPrimary images then 1 else 0)%nat
  /\ find isPrimary (fst (keep_first_primary false images))
     = find isPrimary images.
Proof.
  unfold primaries. induction images as [|img rest [IH1 [IH2 IH3]]]; simpl.
  - repeat split; reflexivity.
  - destruct (isPrimary img) eqn:E; simpl.
    + destruct (keep_first_primary_seen rest) as [H1 H2].
      unfold primaries in H2.
      destruct (keep_first_primary true rest) as [rest' seen]. simpl in *.
      rewrite E. simpl. rewrite H2. auto.
    + destruct (keep_first_primary false rest) as [rest' seen]. simpl in *.
      rewrite E. auto.
Qed.

Lemma keep_first_primary_urls : forall images hasPrimary,
  map url (fst (keep_first_primary hasPrimary images)) = map url images.
Proof.
  induction images as [|img rest IH]; intros hasPrimary; simpl.
  - reflexivity.
  - destruct (isPrimary img); destruct hasPrimary; simpl;
      match goal with
      | |- context [keep_first_primary ?h rest] =>
          specialize (IH h); destruct (keep_first_primary h rest); simpl in *;
          now rewrite IH
      end.
Qed.

Lemma keep_first_primary_none : forall images hasPrimary,
  primaries images = 0%nat ->
  fst (keep_first_primary hasPrimary images) = images.
Proof.
  unfold primaries. induction images as [|img rest IH]; intros hasPrimary; simpl.
  - reflexivity.
  - destruct (isPrimary img) eqn:E; simpl; [discriminate|].
    intros H. specialize (IH hasPrimary H).
    destruct (keep_first_primary hasPrimary rest). simpl in *. now rewrite IH.
Qed.

Lemma keep_first_primary_single : forall images,
  primaries images = 1%nat ->
  fst (keep_first_primary false images) = images.
Proof.
  unfold primaries. induction images as [|img rest IH]; simpl.
  - reflexivity.
  - destruct (isPrimary img) eqn:E; simpl; intros H.
    + injection H as H.
      pose proof (keep_first_primary_none rest true H) as Hn.
      destruct (keep_first_primary true rest). simpl in *. now rewrite Hn.
    + specialize (IH H).
      destruct (keep_first_primary false rest). simpl in *. now rewrite IH.
Qed.

Lemma primaries_exists : forall images,
  existsb isPrimary images = negb (Nat.eqb (primaries images) 0).
Proof.
  unfold primaries. induction images as [|img rest IH]; simpl.
  - reflexivity.
  - destruct (isPrimary img); simpl; [reflexivity | exact IH].
Qed.

Lemma find_primary_none : forall images,
  existsb isPrimary images = false -> find isPrimary images = None.
Proof.
  induction images as [|img rest IH]; simpl.
  - reflexivity.
  - destruct (isPrimary img); simpl; [discriminate | exact IH].
Qed.

Lemma pre_save_single : forall images,
  primaries images = 1%nat -> pre_save images = images.
Proof.
  intros images H. unfold pre_save.
  destruct images as [|img rest]; [reflexivity|].
  pose proof (keep_first_primary_single _ H) as Hfst.
  destruct (keep_first_primary_fresh (img :: rest)) as [Hsnd _].
  rewrite primaries_exists, H in Hsnd.
  destruct (keep_first_primary false (img :: rest)) as [images' seen].
  simpl in Hfst, Hsnd. subst. reflexivity.
Qed.

Lemma pre_save_cases : forall img rest,
  (existsb isPrimary (img :: rest) = true
   /\ pre_save (img :: rest) = fst (keep_first_primary false (img :: rest)))
  \/ (existsb isPrimary (img :: rest) = false
      /\ pre_save (img :: rest) = with_isPrimary true img :: rest).
Proof.
  intros img rest.
  destruct (keep_first_primary_fresh (img :: rest)) as [Hsnd _].
  destruct (existsb isPrimary (img :: rest)) eqn:Hex; [left | right];
    (split; [reflexivity|]).
  - unfold pre_save.
    destruct (keep_first_primary false (img :: rest)) as [images' seen].
    simpl in Hsnd. subst seen. reflexivity.
  - assert (Hnone : primaries (img :: rest) = 0%nat).
    { pose proof (primaries_exists (img :: rest)) as H. rewrite Hex in H.
      symmetry in H. apply negb_false_iff, Nat.eqb_eq in H. exact H. }
    pose proof (keep_first_primary_none _ false Hnone) as Hfst.
    unfold pre_save.
    destruct (keep_first_primary false (img :: rest)) as [images' seen].
    simpl in Hsnd, Hfst. subst seen images'. reflexivity.
Qed.

(** X26.  What saving a pet does to its images: when the pet has any, the
    saved images have exactly one marked primary; their urls and their
    order are those given; the image the [primaryImage] virtual showed
    before saving is the one it shows afterwards; and saving again changes
    nothing. *)
Theorem pre_save_leaves_one_primary : forall images,
  images <> [] ->
  primaries (pre_save images) = 1%nat
  /\ map url (pre_save images) = map url images
  /\ primaryImage (pre_save images) = primaryImage images
  /\ pre_save (pre_save images) = pre_save images.
Proof.
  intros images Hne.
  destruct images as [|img rest]; [congruence|].
  destruct (keep_first_primary_fresh (img :: rest)) as [_ [Hcnt Hfind]].
  pose proof (keep_first_primary_urls (img :: rest) false) as Hurls.
  assert (Hp : primaries (pre_save (img :: rest)) = 1%nat).
  { destruct (pre_save_cases img rest) as [[Hex Heq] | [Hex Heq]]; rewrite Heq.
    - now rewrite Hcnt, Hex.
    - pose proof (primaries_exists (img :: rest)) as H. rewrite Hex in H.
      symmetry in H. apply negb_false_iff, Nat.eqb_eq in H.
      unfold primaries in *. simpl in *.
      destruct (isPrimary img); [discriminate | now rewrite H]. }
  split; [exact Hp|].
  split; [|split; [|now apply pre_save_single]].
  - destruct (pre_save_cases img rest) as [[Hex Heq] | [Hex Heq]]; rewrite Heq.
    + exact Hurls.
    + reflexivity.
  - destruct (pre_save_cases img rest) as [[Hex Heq] | [Hex Heq]]; rewrite Heq.
    + unfold primaryImage. rewrite Hfind.
      destruct (find isPrimary (img :: rest)) eqn:Hf; [reflexivity|].
      destruct (fst (keep_first_primary false (img :: rest)))
        as [|first rest']; [discriminate|].
      simpl in Hurls. now injection Hurls as ->.
    + unfold primaryImage. rewrite (find_primary_none _ Hex). reflexivity.
Qed.

Lemma pre_save_leaves_one_primary_witness :
  primaries (pre_save gallery) = 1%nat
  /\ map url (pre_save gallery) = map url gallery
  /\ primaryImage (pre_save gallery) = primaryImage gallery
  /\ pre_save (pre_save gallery) = pre_save gallery.
Proof.
  apply (pre_save_leaves_one_primary gallery). discriminate.
Defined.

End PetImageFacts.

(** ** Shelter staff and volunteers *)

Module ShelterTeamFacts.
Import ShelterTeam.

Lemma filter_both : forall (A : Type) (p : A -> bool) (l : list A),
  filter p (filter (fun x => negb (p x)) l) = [].
Proof.
  intros A p l. induction l as [|x l IH]; simpl; [reflexivity|].
  destruct (p x) eqn:E; simpl; [exact IH | now rewrite E].
Qed.

Lemma filter_same : forall (A : Type) (p : A -> bool) (l : list A),
  filter p (filter p l) = filter p l.
Proof.
  intros A p l. induction l as [|x l IH]; simpl; [reflexivity|].
  destruct (p x) eqn:E; simpl; [now rewrite E, IH | exact IH].
Qed.

(** X27.  [addStaff] leaves the user with exactly one staff entry in the
    document it saves, whatever number the user had: the new, active one
    with the given role, placed last, after the entries of the other
    members of staff, which are as they were and in their order; the
    volunteers are as they were. *)
Theorem addStaff_replaces_the_users_entries :
  forall save now userId role shelter,
    exists handed others,
      addStaff save now userId role shelter = save handed
      /\ staff handed = others ++ [mkStaff userId role now true]
      /\ others = filter (fun s => negb (is_staff userId s)) (staff shelter)
      /\ (forall s, In s others -> sf_user s <> userId)
      /\ filter (is_staff userId) (staff handed) = [mkStaff userId role now true]
      /\ filter (fun s => negb (is_staff userId s)) (staff handed)
         = filter (fun s => negb (is_staff userId s)) (staff shelter)
      /\ volunteers handed = volunteers shelter.
Proof.
  intros save now userId role shelter. do 2 eexists.
  split; [reflexivity|]. cbn [staff volunteers].
  split; [reflexivity|]. split; [reflexivity|]. split.
  - intros s Hin. apply filter_In in Hin as [_ Hin].
    apply negb_true_iff in Hin. now apply Nat.eqb_neq in Hin.
  - rewrite !filter_app. repeat split.
    + rewrite filter_both. simpl. unfold is_staff. simpl.
      now rewrite Nat.eqb_refl.
    + rewrite filter_same. simpl. unfold is_staff. simpl.
      rewrite Nat.eqb_refl. simpl. now rewrite app_nil_r.
Qed.

Lemma unique_spec : forall roles seen,
  NoDup (unique seen roles)
  /\ forall r, In r (unique seen roles) <-> In r roles /\ ~ In r seen.
Proof.
  induction roles as [|x roles IH]; intros seen; simpl.
  - split; [constructor | tauto].
  - destruct (existsb (String.eqb x) seen) eqn:E.
    + destruct (IH seen) as [Hnd Hin]. split; [exact Hnd|].
      intros r. rewrite Hin.
      apply existsb_exists in E as [y [Hy Heq]].
      apply String.eqb_eq in Heq. subst y.
      split; [tauto|]. intros [[-> | H] Hn]; tauto.
    + destruct (IH (x :: seen)) as [Hnd Hin].
      assert (Hx : ~ In x seen).
      { intros H. assert (existsb (String.eqb x) seen = true); [|congruence].
        apply existsb_exists. exists x. split; [exact H | apply String.eqb_refl]. }
      split.
      * constructor; [|exact Hnd]. rewrite Hin. simpl. tauto.
      * intros r. simpl. rewrite Hin. simpl.
        destruct (string_dec x r) as [-> | Hne]; tauto.
Qed.

Lemma update_first_users : forall userId f l,
  (forall v, vl_user (f v) = vl_user v) ->
  map vl_user (update_first (is_volunteer userId) f l) = map vl_user l.
Proof.
  intros userId f l Hf. induction l as [|v l IH]; simpl; [reflexivity|].
  destruct (is_volunteer userId v); simpl; [now rewrite Hf | now rewrite IH].
Qed.

Lemma find_volunteer_none : forall userId l,
  find (is_volunteer userId) l = None -> ~ In userId (map vl_user l).
Proof.
  intros userId l. induction l as [|v l IH]; simpl; [tauto|].
  unfold is_volunteer at 1. destruct (Nat.eqb (vl_user v) userId) eqn:E.
  - discriminate.
  - apply Nat.eqb_neq in E. intros H [Heq | Hin]; [congruence | now apply IH].
Qed.

(** X28.  [addVolunteer] never enters a user twice: if no user has two
    volunteer entries, none has in the document it saves, where the user
    has an active entry.  For a user already entered, that entry keeps its
    place, start date and hours and its roles become the old and the new
    ones, each once; for a new user an entry with the given roles is
    added last.  The staff are as they were. *)
Theorem addVolunteer_keeps_one_entry_per_user :
  forall save now userId roles shelter,
    NoDup (map vl_user (volunteers shelter)) ->
    exists handed entry,
      addVolunteer save now userId roles shelter = save handed
      /\ NoDup (map vl_user (volunteers handed))
      /\ find (is_volunteer userId) (volunteers handed) = Some entry
      /\ vl_isActive entry = true
      /\ (forall r, In r (vl_roles entry) <->
            In r roles
            \/ exists old, find (is_volunteer userId) (volunteers shelter)
                           = Some old /\ In r (vl_roles old))
      /\ match find (is_volunteer userId) (volunteers shelter) with
         | Some old =>
             map vl_user (volunteers handed) = map vl_user (volunteers shelter)
             /\ NoDup (vl_roles entry)
             /\ vl_startDate entry = vl_startDate old
             /\ vl_totalHours entry = vl_totalHours old
         | None =>
             volunteers handed
             = volunteers shelter ++ [mkVolunteer userId roles now 0 true]
         end
      /\ staff handed = staff shelter.
Proof.
  intros save now userId roles shelter Hnd. unfold addVolunteer.
  destruct (find (is_volunteer userId) (volunteers shelter)) as [old|] eqn:Hfind.
  - eexists. exists (with_roles roles old).
    split; [reflexivity|]. cbn [staff volunteers].
    assert (Hu : map vl_user (update_first (is_volunteer userId)
                    (with_roles roles) (volunteers shelter))
                 = map vl_user (volunteers shelter))
      by (apply update_first_users; reflexivity).
    destruct (unique_spec (vl_roles old ++ roles) []) as [Hroles Hin].
    repeat split.
    + now rewrite Hu.
    + apply find_update_first; [intros y Hy; exact Hy | exact Hfind].
    + intros H. simpl in H. apply Hin in H as [H _].
      apply in_app_or in H as [H | H].
      * right. now exists old.
      * now left.
    + simpl. intros H. apply Hin. split; [|tauto]. apply in_or_app.
      destruct H as [H | [old' [Heq H]]]; [now right|].
      injection Heq as <-. now left.
    + exact Hu.
    + exact Hroles.
  - eexists. exists (mkVolunteer userId roles now 0 true).
    split; [reflexivity|]. cbn [staff volunteers].
    assert (Hnew : is_volunteer userId (mkVolunteer userId roles now 0 true)
                   = true) by (unfold is_volunteer; simpl; apply Nat.eqb_refl).
    repeat split.
    + rewrite map_app. simpl.
      apply (Permutation_NoDup (Permutation_cons_append _ _)).
      constructor; [now apply find_volunteer_none | exact Hnd].
    + clear Hnd. induction (volunteers shelter) as [|v l IH]; simpl in *.
      * now rewrite Hnew.
      * destruct (is_volunteer userId v); [discriminate | now apply IH].
    + simpl. intros H. now left.
    + simpl. intros [H | [old [Heq _]]]; [exact H | discriminate].
Qed.

Lemma addVolunteer_keeps_one_entry_per_user_witness :
  exists handed entry,
    addVolunteer keep 50 5 ["training"; "photography"] small_shelter
      = keep handed
    /\ NoDup (map vl_user (volunteers handed))
    /\ find (is_volunteer 5) (volunteers handed) = Some entry
    /\ vl_isActive entry = true
    /\ (forall r, In r (vl_roles entry) <->
          In r ["training"; "photography"]
          \/ exists old, find (is_volunteer 5) (volunteers small_shelter)
                         = Some old /\ In r (vl_roles old))
    /\ match find (is_volunteer 5) (volunteers small_shelter) with
       | Some old =>
           map vl_user (volunteers handed)
           = map vl_user (volunteers small_shelter)
           /\ NoDup (vl_roles entry)
           /\ vl_startDate entry = vl_startDate old
           /\ vl_totalHours entry = vl_totalHours old
       | None =>
           volunteers handed
           = volunteers small_shelter
             ++ [mkVolunteer 5 ["training"; "photography"] 50 0 true]
       end
    /\ staff handed = staff small_shelter.
Proof.
  apply (addVolunteer_keeps_one_entry_per_user keep 50 5
           ["training"; "photography"] small_shelter).
  simpl. constructor; [simpl; tauto | constructor].
Defined.

End ShelterTeamFacts.
